(** * ISO 15004-2 small-spot safety calculator: a shallow embedding

    The program is a single Python module, [ISO_Smallspot_Safety_Calculator.py],
    with three functions: [parse_value], [nearest_nm] and
    [iso15004_smallspot].  The model follows the source statement by
    statement.

    - Python floats are IEEE 754 binary64 numbers: Rocq's primitive [float],
      with its comparisons (false on a NaN), signed zeros and infinities.
      Float division raises [ZeroDivisionError] on a zero divisor.
    - Python ints (the table keys) are [Z]; an int is converted to the
      nearest float when it meets one in arithmetic, and [OverflowError] is
      raised when that float is not finite.
    - The float power [**] is the C library's [pow]; the evaluator takes it
      as a parameter [float_pow], and [pow_ref] instantiates it when the model
      is run on concrete inputs.
    - Exceptions are an error type threaded through a small monad; [print]
      appends a line to an output log.
    - A [str] is a Rocq [string] read as Latin-1 text, one character per code
      point below 256.

    - The prompt under [__main__] reads the lines of standard input from a
      list; the builtin [float] it applies to the first line is a parameter,
      like [**]. *)

From Stdlib Require Import ZArith List Sorted String Ascii Bool Lia Floats.
From Stdlib Require Uint63.
Import ListNotations.

Set Warnings "-inexact-float".

(** ** Exceptions and the two monads of the model *)

Inductive exn : Type :=
| ValueError (msg : string)
| KeyError
| ZeroDivisionError
| TypeError
| OverflowError.

Inductive result (A : Type) : Type :=
| Ok (a : A)
| Raise (e : exn).
Arguments Ok {A} a.
Arguments Raise {A} e.

Definition bind {A B : Type} (m : result A) (k : A -> result B) : result B :=
  match m with
  | Ok a => k a
  | Raise e => Raise e
  end.

Declare Scope py_scope.
Delimit Scope py_scope with py.
Notation "x <- m ;; k" := (bind m (fun x => k))
  (at level 61, m at next level, right associativity) : py_scope.

Definition of_option {A : Type} (e : exn) (o : option A) : result A :=
  match o with
  | Some a => Ok a
  | None => Raise e
  end.

(** ** Python float operations *)

Module PyFloat.
Local Open Scope float_scope.

(** [int -> float]: the nearest binary64 value, ties to even. *)
Definition of_int (k : Z) : float :=
  SF2Prim (binary_normalize prec emax k 0 false).

(** The conversion as the interpreter performs it: an int whose nearest
    binary64 value lies beyond the finite range is not rounded to an
    infinity, it raises [OverflowError] (int too large to convert to
    float). *)
Definition fits (k : Z) : bool := negb (is_infinity (of_int k)).

Definition float_of_int (k : Z) : result float :=
  if fits k then Ok (of_int k) else Raise OverflowError.

(** [k - x] with [k] an int and [x] a float: [k] is converted first. *)
Definition int_sub (k : Z) (x : float) : result float :=
  (kf <- float_of_int k ;; Ok (kf - x))%py.

(** [x / y] on floats raises when the divisor compares equal to zero. *)
Definition div (x y : float) : result float :=
  if y =? 0 then Raise ZeroDivisionError else Ok (x / y).

(** [x > y] *)
Definition gtb (x y : float) : bool := y <? x.

(** Truth value of an [Optional[float]]: [None] and zeros are false. *)
Definition truthy (o : option float) : bool :=
  match o with
  | None => false
  | Some x => negb (x =? 0)
  end.

(** [a < b] on two [Optional[float]]s; ordering [None] is a [TypeError]. *)
Definition lt_opt (a b : option float) : result bool :=
  match a, b with
  | Some x, Some y => Ok (x <? y)
  | _, _ => Raise TypeError
  end.

Definition math_pi : float := 3.141592653589793.
End PyFloat.

(** ** Builtin [min(iterable, key=f)]

    CPython keeps the first item and replaces it only when a later key is
    strictly smaller ([val < minval]); an empty iterable is a [ValueError].
    The key function is called on one item after the other, the first item
    included, and an exception it raises ends the call. *)

Fixpoint min_scan {A : Type} (key : A -> result float) (best : A)
         (bestv : float) (l : list A) : result A :=
  match l with
  | [] => Ok best
  | x :: l' =>
      (v <- key x ;;
       if (v <? bestv)%float then min_scan key x v l'
       else min_scan key best bestv l')%py
  end.

Definition py_min {A : Type} (key : A -> result float) (l : list A)
  : result A :=
  match l with
  | [] => Raise (ValueError "min() arg is an empty sequence")
  | x :: l' => (v <- key x ;; min_scan key x v l')%py
  end.

(** The same scan for a key function that returns on every item. *)
Fixpoint min_from {A : Type} (key : A -> float) (best : A) (bestv : float)
         (l : list A) : A :=
  match l with
  | [] => best
  | x :: l' =>
      let v := key x in
      if (v <? bestv)%float then min_from key x v l'
      else min_from key best bestv l'
  end.

(** ** Spectral weighting tables (400-500 nm)

    Python dicts keep insertion order, and [min] walks the keys in that order,
    so the tables are association lists. *)

(** One [key: value] entry of a dict literal. *)
Definition item (k : Z) (v : float) : Z * float := (k, v).
Arguments item k%_Z v%_float.

Definition R_TABLE : list (Z * float) :=
  [ item 400 2.0; item 410 2.0; item 420 2.0; item 430 2.0; item 440 2.0;
    item 450 2.0; item 455 2.0; item 460 2.0; item 470 2.0; item 480 2.0;
    item 490 2.0; item 500 2.0 ].

Definition B_TABLE : list (Z * float) :=
  [ item 400 0.060; item 410 0.180; item 420 0.900; item 430 0.980;
    item 440 0.970; item 450 0.940; item 455 0.900; item 460 0.800;
    item 470 0.630; item 480 0.550; item 490 0.420; item 500 0.320 ].

Definition keys {V : Type} (t : list (Z * V)) : list Z := map fst t.

(** [table[k]]: the first binding of [k], [KeyError] when there is none. *)
Fixpoint lookup {V : Type} (t : list (Z * V)) (k : Z) : option V :=
  match t with
  | [] => None
  | (k', v) :: t' => if Z.eqb k' k then Some v else lookup t' k
  end.

Definition getitem {V : Type} (t : list (Z * V)) (k : Z) : result V :=
  of_option KeyError (lookup t k).

(** The key function of [nearest_nm], [lambda k: abs(k - nm)], with [k] an
    int. *)
Definition nearest_nm_key (nm : float) (k : Z) : result float :=
  (d <- PyFloat.int_sub k nm ;; Ok (abs d))%py.

(** The value of that key, [abs(k - nm)], for a [k] that fits a float. *)
Definition dist (nm : float) (k : Z) : float :=
  abs (PyFloat.of_int k - nm)%float.

Definition nearest_nm_in (nm : float) (table_keys : list Z) : result Z :=
  py_min (nearest_nm_key nm) table_keys.

(** The default argument [table_keys=R_TABLE.keys()]. *)
Definition nearest_nm (nm : float) : result Z :=
  nearest_nm_in nm (keys R_TABLE).

(** ** Output log

    [print] is modelled by appending a line to a log.  A line is the list of
    the pieces of its f-string: literal text (kept as the bytes of the source
    literal) and formatted values with their format specifier; the rendering
    of a number by [format] is left uninterpreted. *)

Inductive piece : Type :=
| Lit (s : string)
| FmtInt (k : Z)
| FmtFloat (spec : string) (x : float)
| FmtStr (s : string).

Definition line : Type := list piece.

(** Computations that print: the lines written so far and the outcome. *)
Definition IO (A : Type) : Type := (list line * result A)%type.

Definition io_ret {A : Type} (a : A) : IO A := ([], Ok a).

Definition io_bind {A B : Type} (m : IO A) (k : A -> IO B) : IO B :=
  match m with
  | (out, Ok a) => let (out', r) := k a in (out ++ out', r)
  | (out, Raise e) => (out, Raise e)
  end.

Definition print (l : line) : IO unit := ([l], Ok tt).

Definition lift {A : Type} (r : result A) : IO A := ([], r).

Declare Scope io_scope.
Delimit Scope io_scope with io.
Notation "x <- m ;; k" := (io_bind m (fun x => k))
  (at level 61, m at next level, right associativity) : io_scope.
Notation "m ;; k" := (io_bind m (fun _ => k))
  (at level 61, right associativity) : io_scope.

(** [f"{v:spec}"] for a value that may be [None]: [NoneType.__format__]
    rejects every non-empty specifier. *)
Definition fmt (spec : string) (v : option float) : result piece :=
  match v with
  | Some x => Ok (FmtFloat spec x)
  | None => Raise TypeError
  end.

Definition nl : string := String "010"%char EmptyString.

(** The value a Python function returns; this module only ever returns
    [None] from the evaluator. *)
Inductive pyvalue : Type :=
| PyNone
| PyFloatV (x : float).

(** ** The evaluator [iso15004_smallspot] *)

(** The local variables of [iso15004_smallspot] when the computation part
    (source lines 50-102) is done. *)
Record Locals : Type := mkLocals {
  nm : Z;
  R : float;
  B : float;
  A_cm2 : float;
  E_pulse : float;
  E_pulse_eff : float;
  single_margin : float;
  E_eff : float;
  thermal_limit : option float;
  thermal_margin : option float;
  E_photo : float;
  H_photo : option float;
  photo_margin : option float;
  governing : string;
  t_safe_photo : float
}.

Definition default_rep_rate_Hz : float := 59e6.
Definition default_pulse_duration_s : float := 6e-12.

Definition single_limit : float := 40e-9.
Definition photo_limit : float := 2.2.
Definition d_mm : float := 0.03.
Definition r_cm : float := ((d_mm / 2) / 10.0)%float.

(** Lines 55-58: the two [R] substitution rules, one after the other. *)
Definition apply_substitution_rules (pulse_duration_s dwell_time_s R : float)
  : float :=
  let R := if (pulse_duration_s <? 1e-11)%float && (R <? 1.0)%float
           then 1.0%float else R in
  let R := if PyFloat.gtb dwell_time_s 10.0 && PyFloat.gtb R 1.0
           then 1.0%float else R in
  R.

(** Lines 89-99: the governing hazard. *)
Definition determine_governing (dwell_time_s : float)
           (thermal_margin photo_margin : option float) : result string :=
  if (dwell_time_s <=? 6.2e-4)%float then
    Ok "Thermal only (photochemical not applicable)"%string
  else if PyFloat.truthy thermal_margin && PyFloat.truthy photo_margin then
    (lt <- PyFloat.lt_opt photo_margin thermal_margin ;;
     Ok (if lt : bool then "Photochemical" else "Thermal")%string)%py
  else if PyFloat.truthy thermal_margin then Ok "Thermal"%string
  else if PyFloat.truthy photo_margin then Ok "Photochemical"%string
  else Ok "Indeterminate"%string.

Section Evaluator.

(** Python's float power [x ** y] is the C library's [pow], which is not
    part of the repository and whose rounding IEEE 754 does not fix; the
    evaluator is parametric in it.  Both uses have a positive base, where
    [**] neither raises nor leaves the floats. *)
Variable float_pow : float -> float -> float.

Local Open Scope float_scope.

(** Line 63: the fixed small-spot aperture. *)
Definition aperture_cm2 : float := PyFloat.math_pi * float_pow r_cm 2.

(** Lines 50-102. *)
Definition hazard_locals
           (wavelength_nm power_pupil_W dwell_time_s
            rep_rate_Hz pulse_duration_s : float) : result Locals :=
  (nm <- nearest_nm wavelength_nm ;;
   R <- getitem R_TABLE nm ;;
   B <- getitem B_TABLE nm ;;
   let R := apply_substitution_rules pulse_duration_s dwell_time_s R in
   let A_cm2 := aperture_cm2 in
   E_pulse <- PyFloat.div power_pupil_W rep_rate_Hz ;;
   let E_pulse_eff := R * E_pulse in
   single_margin <-
     (if PyFloat.gtb E_pulse_eff 0 then PyFloat.div single_limit E_pulse_eff
      else Ok infinity) ;;
   let E_eff := R * power_pupil_W * dwell_time_s in
   thermal <-
     (if PyFloat.gtb dwell_time_s 6.2e-4 then
        let thermal_limit := 1.7 * (float_pow dwell_time_s 0.75) * 1e-3 in
        thermal_margin <-
          (if PyFloat.gtb E_eff 0 then PyFloat.div thermal_limit E_eff
           else Ok infinity) ;;
        Ok (Some thermal_limit, Some thermal_margin)
      else Ok (None, None)) ;;
   let '(thermal_limit, thermal_margin) := thermal in
   E_photo <- PyFloat.div (power_pupil_W * B) A_cm2 ;;
   photo <-
     (if PyFloat.gtb dwell_time_s 6.2e-4 then
        let H_photo := E_photo * dwell_time_s in
        photo_margin <-
          (if PyFloat.gtb H_photo 0 then PyFloat.div photo_limit H_photo
           else Ok infinity) ;;
        Ok (Some H_photo, Some photo_margin)
      else Ok (None, None)) ;;
   let '(H_photo, photo_margin) := photo in
   governing <- determine_governing dwell_time_s thermal_margin photo_margin ;;
   t_safe_photo <-
     (if PyFloat.gtb E_photo 0 then PyFloat.div photo_limit E_photo
      else Ok infinity) ;;
   Ok (mkLocals nm R B A_cm2 E_pulse E_pulse_eff single_margin E_eff
                thermal_limit thermal_margin E_photo H_photo photo_margin
                governing t_safe_photo))%py.

(** Lines 105-135: the formatted report. *)
Definition report (power_pupil_W dwell_time_s rep_rate_Hz pulse_duration_s
                   : float) (st : Locals) : IO unit :=
  (print [Lit (nl ++ "=== ISO 15004-2:2025 Small-Spot Laser Safety Evaluation ===")] ;;
   print [Lit "Wavelength (nm):           "; FmtInt (nm st)] ;;
   print [Lit "Pulse duration (s):        "; FmtFloat ".2e" pulse_duration_s] ;;
   print [Lit "Exposure time (s):         "; FmtFloat ".3g" dwell_time_s] ;;
   print [Lit "Power at pupil (W):        "; FmtFloat ".3g" power_pupil_W] ;;
   print [Lit "Repetition rate (Hz):      "; FmtFloat ".3g" rep_rate_Hz] ;;
   print [Lit "Spot diameter (mm):        0.03 (fixed small-spot)"] ;;
   print [Lit (nl ++ "--- Spectral weighting ---")] ;;
   print [Lit "R(λ):                      "; FmtFloat "" (R st)] ;;
   print [Lit "B(λ):                      "; FmtFloat "" (B st)] ;;
   print [Lit (nl ++ "--- Single-pulse check ---")] ;;
   print [Lit "Pulse energy (J):          "; FmtFloat ".3e" (E_pulse st)] ;;
   print [Lit "Weighted pulse (J):        "; FmtFloat ".3e" (E_pulse_eff st)] ;;
   print [Lit "Limit (J):                 4.00e-8"] ;;
   print [Lit "Margin:                    "; FmtFloat ".1f" (single_margin st);
          Lit " × below limit"] ;;
   (if PyFloat.gtb dwell_time_s 6.2e-4 then
      print [Lit (nl ++ "--- Thermal hazard ---")] ;;
      print [Lit "Weighted energy (J):       "; FmtFloat ".3e" (E_eff st)] ;;
      p <- lift (fmt ".3e" (thermal_limit st)) ;;
      print [Lit "Thermal limit (J):         "; p] ;;
      p <- lift (fmt ".1f" (thermal_margin st)) ;;
      print [Lit "Margin:                    "; p; Lit " × below limit"] ;;
      print [Lit (nl ++ "--- Photochemical hazard ---")] ;;
      print [Lit "E_photo (W/cm²):           "; FmtFloat ".3e" (E_photo st)] ;;
      p <- lift (fmt ".3e" (H_photo st)) ;;
      print [Lit "Dose (J/cm²):              "; p] ;;
      print [Lit "Limit (J/cm²):             2.20"] ;;
      p <- lift (fmt ".1f" (photo_margin st)) ;;
      print [Lit "Margin:                    "; p; Lit " × below limit"] ;;
      print [Lit (nl ++ "Governing hazard:          "); FmtStr (governing st)] ;;
      print [Lit "Safe stopped-beam time(s): "; FmtFloat ".3e" (t_safe_photo st)]
    else
      print [Lit (nl ++ "Exposure below 6.2 × 10⁻⁴ s → Photochemical hazard not applicable")] ;;
      print [Lit "Governing hazard:          "; FmtStr (governing st)]) ;;
   print [Lit ("============================================================" ++ nl)])%io.

(** The whole function: it computes, prints, and falls off its end, so the
    caller receives [None]. *)
Definition iso15004_smallspot
           (wavelength_nm power_pupil_W dwell_time_s
            rep_rate_Hz pulse_duration_s : float) : IO pyvalue :=
  (st <- lift (hazard_locals wavelength_nm power_pupil_W dwell_time_s
                             rep_rate_Hz pulse_duration_s) ;;
   report power_pupil_W dwell_time_s rep_rate_Hz pulse_duration_s st ;;
   io_ret PyNone)%io.

End Evaluator.

(** A reference power function for running the model on concrete inputs:
    exact squaring, and [x ** 0.75] as [sqrt x * sqrt (sqrt x)].  It agrees
    with C's [pow] wherever that one is exact (for instance [1.0 ** y = 1.0]). *)
Definition pow_ref (x y : float) : float :=
  if (y =? 2)%float then (x * x)%float
  else if (y =? 0.75)%float then (sqrt x * sqrt (sqrt x))%float
  else nan.

(** ** The metric prefix parser [parse_value]

    A Python [str] is read as Latin-1 text: a Rocq character is the code
    point of the same number.  On this range [str.isspace], [str.lower] and
    the regular expression classes are the finite tables below. *)

Module Str.

Definition code (c : ascii) : N := N_of_ascii c.

(** [c.isspace()], also the class [\s] of [re] on [str] patterns:
    TAB..CR, FS..US, SPACE, NEL and NBSP. *)
Definition isspace (c : ascii) : bool :=
  let n := code c in
  ((9 <=? n) && (n <=? 13) || (28 <=? n) && (n <=? 32)
   || (n =? 133) || (n =? 160))%N.

(** [c.lower()] for one character: [A-Z] and the upper-case letters of the
    Latin-1 supplement (0xC0-0xDE but the multiplication sign 0xD7). *)
Definition lower_char (c : ascii) : ascii :=
  let n := code c in
  if ((65 <=? n) && (n <=? 90)
      || (192 <=? n) && (n <=? 222) && negb (n =? 215))%N
  then ascii_of_N (n + 32) else c.

Definition lower (s : list ascii) : list ascii := map lower_char s.

Fixpoint lstrip (s : list ascii) : list ascii :=
  match s with
  | c :: s' => if isspace c then lstrip s' else s
  | [] => []
  end.

Definition rstrip (s : list ascii) : list ascii := rev (lstrip (rev s)).

Definition strip (s : list ascii) : list ascii := rstrip (lstrip s).

(** [s.replace(old, new)] for one-character [old] and [new]. *)
Definition replace_char (old new : ascii) (s : list ascii) : list ascii :=
  map (fun c => if Ascii.eqb c old then new else c) s.

Definition micro : ascii := ascii_of_N 181.

Definition isdigit (c : ascii) : bool :=
  let n := code c in ((48 <=? n) && (n <=? 57))%N.

(** The longest prefix whose characters satisfy [p], and the rest. *)
Fixpoint span (p : ascii -> bool) (s : list ascii)
  : list ascii * list ascii :=
  match s with
  | c :: s' =>
      if p c then let (a, b) := span p s' in (c :: a, b) else ([], s)
  | [] => ([], [])
  end.

End Str.

(** The pattern [([0-9.]+)\s*([tgmkmunpf]?)] applied with [re.match]: it is
    anchored at the start only.  Every part after the first group can match
    the empty string, so the greedy choice is never undone: group 1 is the
    longest run of digits and dots, the white space after it is skipped, and
    group 2 is the next character when it is in the class, otherwise empty. *)
Definition in_num_class (c : ascii) : bool :=
  Str.isdigit c || Ascii.eqb c "."%char.

Definition in_prefix_class (c : ascii) : bool :=
  existsb (Ascii.eqb c)
          ["t"; "g"; "m"; "k"; "m"; "u"; "n"; "p"; "f"]%char.

Definition re_match (s : list ascii) : option (list ascii * list ascii) :=
  let (num, rest) := Str.span in_num_class s in
  match num with
  | [] => None
  | _ :: _ =>
      match Str.lstrip rest with
      | c :: _ => if in_prefix_class c then Some (num, [c]) else Some (num, [])
      | [] => Some (num, [])
      end
  end.

(** [float(s)] for a string of digits and dots: at most one dot and at least
    one digit, else [ValueError]; the value is the binary64 number nearest to
    the decimal, ties to even, infinite on overflow. *)
Fixpoint digits_value (acc : Z) (s : list ascii) : Z :=
  match s with
  | c :: s' => digits_value (10 * acc + (Z.of_N (Str.code c) - 48)) s'
  | [] => acc
  end.

Definition decimal_to_float (int_part frac_part : list ascii) : float :=
  match digits_value 0 (int_part ++ frac_part) with
  | Zpos m =>
      let pow10 := Z.to_pos (10 ^ Z.of_nat (List.length frac_part)) in
      SF2Prim (SFdiv prec emax (S754_finite false m 0)
                     (S754_finite false pow10 0))
  | _ => 0%float
  end.

Definition float_of_str (s : list ascii) : result float :=
  let (int_part, rest) := Str.span Str.isdigit s in
  let bad := Raise (ValueError ("could not convert string to float: '"
                                ++ string_of_list_ascii s ++ "'")) in
  match rest with
  | [] =>
      match int_part with
      | [] => bad
      | _ :: _ => Ok (decimal_to_float int_part [])
      end
  | c :: rest' =>
      if Ascii.eqb c "."%char then
        let (frac_part, junk) := Str.span Str.isdigit rest' in
        match junk, int_part ++ frac_part with
        | [], _ :: _ => Ok (decimal_to_float int_part frac_part)
        | _, _ => bad
        end
      else bad
  end.

(** The dict literal of scales; its keys are strings. *)
Definition scale_table : list (string * float) :=
  [ ("t", 1e12); ("g", 1e9); ("m", 1e-3); ("k", 1e3); ("u", 1e-6);
    ("n", 1e-9); ("p", 1e-12); ("f", 1e-15); ("", 1.0) ]%float%string.

Fixpoint scale_lookup (t : list (string * float)) (k : string)
  : option float :=
  match t with
  | [] => None
  | (k', v) :: t' => if String.eqb k' k then Some v else scale_lookup t' k
  end.

(** Line 11: [val_str.strip().lower().replace("µ", "u")]. *)
Definition normalised (val_str : string) : list ascii :=
  Str.replace_char Str.micro "u"
    (Str.lower (Str.strip (list_ascii_of_string val_str))).

Definition parse_value (val_str : string) : result float :=
  let val_str := normalised val_str in
  match re_match val_str with
  | None =>
      Raise (ValueError ("Invalid value format: "
                         ++ string_of_list_ascii val_str))
  | Some (num, prefix) =>
      (num <- float_of_str num ;;
       scale <- of_option KeyError
                  (scale_lookup scale_table (string_of_list_ascii prefix)) ;;
       Ok (num * scale)%float)%py
  end.

(** ** Auxiliary definitions used by the statements *)

(** The keys of both tables, in insertion order. *)
Definition grid : list Z :=
  [400; 410; 420; 430; 440; 450; 455; 460; 470; 480; 490; 500]%Z.

(** What [min] computes on the keys of [R_TABLE]: the scan starts from the
    first key. *)
Definition nearest_key (nm : float) : Z :=
  min_from (dist nm) 400%Z (dist nm 400%Z) (tl grid).

(** The wavelength grid as the specification words it: 400 to 500 nm in
    steps of 10 nm. *)
Definition spec_grid_10nm : list Z :=
  map (fun i => (400 + 10 * Z.of_nat i)%Z) (seq 0 11).

(** The scale of each prefix letter as the specification lists them, but
    for "M" (mega); a letter matches an entry whatever its case. *)
Definition spec_scales : list (ascii * float) :=
  [ ("T", 1e12); ("G", 1e9); ("k", 1e3); ("m", 1e-3); ("u", 1e-6);
    ("n", 1e-9); ("p", 1e-12); ("f", 1e-15) ]%float%char.

(** ** The interactive prompt (the [__main__] block)

    [input(prompt)] writes the prompt, then takes the next line of standard
    input, and raises [EOFError] when there is none.  Standard input is the
    list of its lines; what the program writes is a list of events, a prompt
    or a printed line.  An exception nobody catches ends the program. *)

Inductive event : Type :=
| Prompt (s : string)
| Printed (l : line).

Inductive uncaught : Type :=
| EOFError
| Uncaught (e : exn).

Inductive console_result (A : Type) : Type :=
| Returned (a : A) (stdin : list string)
| Stopped (e : uncaught).
Arguments Returned {A} a stdin.
Arguments Stopped {A} e.

Definition Console (A : Type) : Type :=
  list string -> list event * console_result A.

Definition console_bind {A B : Type} (m : Console A) (k : A -> Console B)
  : Console B :=
  fun stdin =>
    match m stdin with
    | (ev, Returned a stdin') =>
        let (ev', r) := k a stdin' in (ev ++ ev', r)
    | (ev, Stopped e) => (ev, Stopped e)
    end.

Definition input (prompt : string) : Console string :=
  fun stdin =>
    match stdin with
    | [] => ([Prompt prompt], Stopped EOFError)
    | l :: stdin' => ([Prompt prompt], Returned l stdin')
    end.

(** A call that may raise, and a call that prints and may raise. *)
Definition call {A : Type} (r : result A) : Console A :=
  fun stdin =>
    match r with
    | Ok a => ([], Returned a stdin)
    | Raise e => ([], Stopped (Uncaught e))
    end.

Definition call_io {A : Type} (m : IO A) : Console A :=
  fun stdin =>
    match m with
    | (out, Ok a) => (map Printed out, Returned a stdin)
    | (out, Raise e) => (map Printed out, Stopped (Uncaught e))
    end.

Declare Scope console_scope.
Delimit Scope console_scope with console.
Notation "x <- m ;; k" := (console_bind m (fun x => k))
  (at level 61, m at next level, right associativity) : console_scope.

Definition prompt_wavelength : string := "Enter wavelength (nm, 400–500): ".
Definition prompt_power : string :=
  "Enter power at pupil (e.g., 5u for 5 µW): ".
Definition prompt_duration : string :=
  "Enter exposure duration (e.g., 100m for 100 ms): ".

Section Main.

Variable float_pow : float -> float -> float.

(** The builtin [float] on a string, a parameter like [**]. *)
Variable builtin_float : string -> result float.

(** Lines 138-144. *)
Definition main : Console pyvalue :=
  (s <- input prompt_wavelength ;;
   wavelength <- call (builtin_float s) ;;
   P_str <- input prompt_power ;;
   t_str <- input prompt_duration ;;
   P <- call (parse_value P_str) ;;
   t <- call (parse_value t_str) ;;
   call_io (iso15004_smallspot float_pow wavelength P t
                               default_rep_rate_Hz
                               default_pulse_duration_s))%console.

End Main.

(** A reference [float] for running the prompt on concrete lines: the
    conversion of plain decimals used by [parse_value]. *)
Definition float_ref (s : string) : result float :=
  float_of_str (list_ascii_of_string s).

(** What line 11 of [parse_value] does to one character that is not
    stripped: lower case, and "u" for the micro sign. *)
Definition normal_char (c : ascii) : ascii :=
  if Ascii.eqb (Str.lower_char c) Str.micro then "u"%char
  else Str.lower_char c.

(** ** Signs of binary64 numbers, for the statements *)

(** [x] is a number (not a NaN) whose sign bit is [s]. *)
Definition signed (s : bool) (x : spec_float) : Prop :=
  match x with
  | S754_zero s' | S754_infinity s' | S754_finite s' _ _ => s' = s
  | S754_nan => False
  end.

(** [x] is not a positive number: a NaN, a zero, or negative. *)
Definition not_positive (x : spec_float) : Prop :=
  match x with
  | S754_nan | S754_zero _ => True
  | S754_infinity s | S754_finite s _ _ => s = true
  end.

(** * Facts about binary64 comparisons

    The primitive comparisons are specified by [SFcompare] on [spec_float];
    the order facts are proved there and transported. *)

Module FloatOrder.

Ltac cmp_cases :=
  repeat match goal with
  | |- context [Z.compare ?a ?b] => destruct (Z.compare_spec a b)
  | H : context [Z.compare ?a ?b] |- _ => destruct (Z.compare_spec a b)
  | |- context [Pos.compare_cont Eq ?a ?b] =>
      change (Pos.compare_cont Eq a b) with (Pos.compare a b);
      destruct (Pos.compare_spec a b)
  | H : context [Pos.compare_cont Eq ?a ?b] |- _ =>
      change (Pos.compare_cont Eq a b) with (Pos.compare a b) in H;
      destruct (Pos.compare_spec a b)
  end.

Ltac sf_crush :=
  intros;
  repeat match goal with
  | x : spec_float |- _ => destruct x
  | b : bool |- _ => destruct b
  end;
  simpl in *; try congruence; try reflexivity;
  cmp_cases; simpl in *; subst; try congruence; try reflexivity; try lia.

Lemma SFcompare_antisym (x y : spec_float) :
  SFcompare y x = option_map CompOpp (SFcompare x y).
Proof. sf_crush. Qed.

Lemma SFcompare_lt_trans (x y z : spec_float) :
  SFcompare x y = Some Lt -> SFcompare y z = Some Lt ->
  SFcompare x z = Some Lt.
Proof. sf_crush. Qed.

Lemma SFcompare_eq_lt (x y z : spec_float) :
  SFcompare x y = Some Eq -> SFcompare y z = Some Lt ->
  SFcompare x z = Some Lt.
Proof. sf_crush. Qed.

Lemma SFcompare_nan_free (x y : spec_float) :
  x <> S754_nan -> y <> S754_nan -> SFcompare x y <> None.
Proof. sf_crush. Qed.

Local Open Scope float_scope.

(** Unfold a primitive comparison into a case analysis on [SFcompare]. *)
Ltac to_spec :=
  intros;
  repeat match goal with
  | H : context [(_ <? _)] |- _ => rewrite ltb_spec in H
  | H : context [(_ <=? _)] |- _ => rewrite leb_spec in H
  | H : context [(_ =? _)] |- _ => rewrite eqb_spec in H
  | |- context [(_ <? _)] => rewrite ltb_spec
  | |- context [(_ <=? _)] => rewrite leb_spec
  | |- context [(_ =? _)] => rewrite eqb_spec
  end;
  unfold SFltb, SFleb, SFeqb in *.

Lemma ltb_trans (x y z : float) :
  (x <? y) = true -> (y <? z) = true -> (x <? z) = true.
Proof.
  to_spec.
  destruct (SFcompare (Prim2SF x) (Prim2SF y)) as [[]|] eqn:Hxy; try discriminate.
  destruct (SFcompare (Prim2SF y) (Prim2SF z)) as [[]|] eqn:Hyz; try discriminate.
  now rewrite (SFcompare_lt_trans _ _ _ Hxy Hyz).
Qed.

Lemma eqb_ltb_trans (x y z : float) :
  (x =? y) = true -> (y <? z) = true -> (x <? z) = true.
Proof.
  to_spec.
  destruct (SFcompare (Prim2SF x) (Prim2SF y)) as [[]|] eqn:Hxy; try discriminate.
  destruct (SFcompare (Prim2SF y) (Prim2SF z)) as [[]|] eqn:Hyz; try discriminate.
  now rewrite (SFcompare_eq_lt _ _ _ Hxy Hyz).
Qed.

Lemma ltb_asym (x y : float) : (x <? y) = true -> (y <? x) = false.
Proof.
  to_spec. rewrite (SFcompare_antisym (Prim2SF x) (Prim2SF y)).
  destruct (SFcompare (Prim2SF x) (Prim2SF y)) as [[]|]; simpl; congruence.
Qed.

Lemma ltb_irrefl (x : float) : (x <? x) = false.
Proof.
  destruct (x <? x) eqn:H; [|reflexivity].
  now rewrite (ltb_asym _ _ H) in H.
Qed.

Lemma ltb_neq (x y : float) : (x <? y) = true -> (y =? x) = false.
Proof.
  to_spec. rewrite (SFcompare_antisym (Prim2SF x) (Prim2SF y)).
  destruct (SFcompare (Prim2SF x) (Prim2SF y)) as [[]|]; simpl; congruence.
Qed.

Lemma leb_not_gtb (x y : float) : (x <=? y) = true -> (y <? x) = false.
Proof.
  to_spec. rewrite (SFcompare_antisym (Prim2SF x) (Prim2SF y)).
  destruct (SFcompare (Prim2SF x) (Prim2SF y)) as [[]|]; simpl; congruence.
Qed.

Lemma ltb_not_leb (x y : float) : (x <? y) = true -> (y <=? x) = false.
Proof.
  to_spec. rewrite (SFcompare_antisym (Prim2SF x) (Prim2SF y)).
  destruct (SFcompare (Prim2SF x) (Prim2SF y)) as [[]|]; simpl; congruence.
Qed.

(** On numbers (no NaN) the order is total. *)
Lemma not_ltb_leb (x y : float) :
  Prim2SF x <> S754_nan -> Prim2SF y <> S754_nan ->
  (x <? y) = false -> (y <=? x) = true.
Proof.
  intros Hx Hy. to_spec. rewrite (SFcompare_antisym (Prim2SF x) (Prim2SF y)).
  pose proof (SFcompare_nan_free _ _ Hx Hy).
  destruct (SFcompare (Prim2SF x) (Prim2SF y)) as [[]|]; simpl; congruence.
Qed.

(** ** Zeros and NaNs

    A float that is a zero or a NaN stays one under the products and
    quotients of the evaluator, and is never [> 0]. *)

Definition zero_or_nan (x : float) : Prop :=
  Prim2SF x = S754_nan \/ exists s, Prim2SF x = S754_zero s.

Lemma eqb_zero (x : float) : (x =? 0) = true -> zero_or_nan x.
Proof.
  rewrite eqb_spec. unfold SFeqb, zero_or_nan.
  change (Prim2SF 0) with (S754_zero false).
  destruct (Prim2SF x) as [s|s| |s m e]; simpl; try discriminate; eauto;
    destruct s; discriminate.
Qed.

Lemma zero_or_nan_not_pos (x : float) : zero_or_nan x -> (0 <? x) = false.
Proof.
  rewrite ltb_spec. unfold SFltb.
  change (Prim2SF 0) with (S754_zero false).
  intros [-> | [s ->]]; reflexivity.
Qed.

Lemma zero_or_nan_mul_l (x y : float) : zero_or_nan x -> zero_or_nan (x * y).
Proof.
  unfold zero_or_nan. rewrite mul_spec. unfold SF64mul.
  intros [-> | [s ->]]; [left; reflexivity|].
  destruct (Prim2SF y) as [sy|sy| |sy my ey]; simpl; eauto.
Qed.

Lemma zero_or_nan_mul_r (x y : float) : zero_or_nan y -> zero_or_nan (x * y).
Proof.
  unfold zero_or_nan. rewrite mul_spec. unfold SF64mul.
  intros [-> | [s ->]].
  - left. destruct (Prim2SF x); reflexivity.
  - destruct (Prim2SF x) as [sx|sx| |sx mx ex]; simpl; eauto.
Qed.

Lemma zero_or_nan_div (x y : float) : zero_or_nan x -> zero_or_nan (x / y).
Proof.
  unfold zero_or_nan. rewrite div_spec. unfold SF64div.
  intros [-> | [s ->]]; [left; reflexivity|].
  destruct (Prim2SF y) as [sy|sy| |sy my ey]; simpl; eauto.
Qed.

End FloatOrder.

(** * Rounding never produces a NaN

    Needed to know that the distance [abs (k - nm)] is a number whenever the
    wavelength is. *)

Module NoNaN.

Lemma shr_1_nonneg (mrs : shr_record) :
  (0 <= shr_m mrs)%Z -> (0 <= shr_m (shr_1 mrs))%Z.
Proof.
  destruct mrs as [m r s]; simpl.
  destruct m as [|[p|p|]|[p|p|]]; simpl; lia.
Qed.

Lemma iter_shr_1_nonneg (p : positive) (mrs : shr_record) :
  (0 <= shr_m mrs)%Z -> (0 <= shr_m (iter_pos shr_1 p mrs))%Z.
Proof.
  revert mrs; induction p as [p IH|p IH|]; intros mrs H; simpl.
  - apply IH, IH, shr_1_nonneg, H.
  - apply IH, IH, H.
  - apply shr_1_nonneg, H.
Qed.

Lemma shr_fexp_nonneg (m e : Z) (l : location) :
  (0 <= m)%Z -> (0 <= shr_m (fst (shr_fexp prec emax m e l)))%Z.
Proof.
  intros Hm. unfold shr_fexp, shr.
  assert (H0 : (0 <= shr_m (shr_record_of_loc m l))%Z)
    by (destruct l as [|[]]; exact Hm).
  destruct (fexp prec emax (Zdigits2 m + e) - e)%Z; simpl; auto.
  apply iter_shr_1_nonneg, H0.
Qed.

Lemma round_nearest_even_nonneg (m : Z) (l : location) :
  (0 <= m)%Z -> (0 <= round_nearest_even m l)%Z.
Proof.
  intros Hm. destruct l as [|[]]; simpl; try lia.
  destruct (Z.even m); lia.
Qed.

Lemma binary_round_aux_not_nan (s : bool) (m e : Z) (l : location) :
  (0 <= m)%Z -> binary_round_aux prec emax s m e l <> S754_nan.
Proof.
  intros Hm. unfold binary_round_aux.
  pose proof (shr_fexp_nonneg m e l Hm) as H1.
  destruct (shr_fexp prec emax m e l) as [mrs' e']; simpl in H1.
  pose proof (shr_fexp_nonneg _ e' loc_Exact
                (round_nearest_even_nonneg _ (loc_of_shr_record mrs') H1)) as H2.
  destruct (shr_fexp prec emax _ e' loc_Exact) as [mrs'' e'']; simpl in H2.
  destruct (shr_m mrs'') as [|q|q]; try discriminate; try lia.
  destruct (e'' <=? emax - prec)%Z; discriminate.
Qed.

Lemma binary_normalize_not_nan (m e : Z) (sz : bool) :
  binary_normalize prec emax m e sz <> S754_nan.
Proof.
  unfold binary_normalize, binary_round.
  destruct m as [|q|q]; try discriminate.
  - destruct (shl_align q e _) as [mz ez].
    apply binary_round_aux_not_nan; lia.
  - destruct (shl_align q e _) as [mz ez].
    apply binary_round_aux_not_nan; lia.
Qed.

Lemma SFsub_finite_not_nan (s : bool) (m : positive) (e : Z) (y : spec_float) :
  y <> S754_nan -> SF64sub (S754_finite s m e) y <> S754_nan.
Proof.
  intros Hy. unfold SF64sub, SFsub.
  destruct y as [sy|sy| |sy my ey]; try discriminate; try congruence.
  apply binary_normalize_not_nan.
Qed.

Lemma SFabs_not_nan (x : spec_float) : x <> S754_nan -> SFabs x <> S754_nan.
Proof. destruct x; simpl; congruence. Qed.

End NoNaN.

(** * The builtin [min] returns the first item with a least key *)

Section MinFrom.

Context {A : Type}.
Variable key : A -> float.

Local Open Scope float_scope.

Lemma min_from_In (l : list A) (best : A) (v : float) :
  min_from key best v l = best \/ In (min_from key best v l) l.
Proof.
  revert best v; induction l as [|x l IH]; intros best v; simpl; auto.
  destruct (key x <? v).
  - destruct (IH x (key x)); auto.
  - destruct (IH best v); auto.
Qed.

(** Either the first item survives, or the result is a later item with a
    strictly smaller key and no item before it has an equal key. *)
Lemma min_from_first (l : list A) (best : A) :
  let r := min_from key best (key best) l in
  (r = best /\ forall x, In x l -> (key x <? key best) = false)
  \/ ((key r <? key best) = true
      /\ exists pre post,
          l = pre ++ r :: post
          /\ forall x, In x pre -> (key x =? key r) = false).
Proof.
  revert best; induction l as [|x l IH]; intros best; simpl.
  - left; split; [reflexivity | intros x []].
  - destruct (key x <? key best) eqn:Hx.
    + right. destruct (IH x) as [[Hr _] | [Hlt (pre & post & Hl & Hpre)]].
      * rewrite Hr. split; [exact Hx|].
        exists [], l. split; [reflexivity | intros y []].
      * split; [exact (FloatOrder.ltb_trans _ _ _ Hlt Hx)|].
        exists (x :: pre), post. split; [simpl; congruence|].
        intros y [<- | Hy]; [|auto].
        apply FloatOrder.ltb_neq, Hlt.
    + destruct (IH best) as [[Hr Hall] | [Hlt (pre & post & Hl & Hpre)]].
      * left. split; [exact Hr|].
        intros y [<- | Hy]; auto.
      * right. split; [exact Hlt|].
        exists (x :: pre), post. split; [simpl; congruence|].
        intros y [<- | Hy]; [|auto].
        destruct (key x =? key (min_from key best (key best) l)) eqn:He;
          [|reflexivity].
        rewrite (FloatOrder.eqb_ltb_trans _ _ _ He Hlt) in Hx. discriminate.
Qed.

(** No item has a key strictly below the result's. *)
Lemma min_from_least (l : list A) (best : A) (x : A) :
  x = best \/ In x l ->
  (key x <? key (min_from key best (key best) l)) = false.
Proof.
  revert best x; induction l as [|y l IH]; intros best x Hin; simpl.
  - destruct Hin as [-> | []]. apply FloatOrder.ltb_irrefl.
  - destruct (key y <? key best) eqn:Hy.
    + destruct Hin as [Hin | [Hin | Hin]].
      * subst x.
        destruct (key best <? key (min_from key y (key y) l)) eqn:Hb;
          [|reflexivity].
        pose proof (FloatOrder.ltb_trans _ _ _ Hy Hb) as Hyr.
        rewrite (IH y y (or_introl eq_refl)) in Hyr. discriminate.
      * subst x. apply IH. left; reflexivity.
      * apply IH. right; exact Hin.
    + destruct Hin as [Hin | [Hin | Hin]].
      * apply IH. left; exact Hin.
      * subst x.
        destruct (min_from_first l best) as [[Hr _] | [Hlt _]]; cbv zeta in *.
        -- rewrite Hr. exact Hy.
        -- destruct (key y <? key (min_from key best (key best) l)) eqn:Hb;
             [|reflexivity].
           rewrite (FloatOrder.ltb_trans _ _ _ Hb Hlt) in Hy. discriminate.
      * apply IH. right; exact Hin.
Qed.

End MinFrom.

(** * The builtin [min] with a key function that may raise *)

Section MinScan.

Context {A : Type}.
Variable key : A -> result float.

(** Where the key function returns on every item, the scan is [min_from]. *)
Lemma min_scan_pure (f : A -> float) (l : list A) (best : A) (v : float) :
  (forall x, In x l -> key x = Ok (f x)) ->
  min_scan key best v l = Ok (min_from f best v l).
Proof.
  revert best v; induction l as [|x l IH]; intros best v H; [reflexivity|].
  cbn [min_scan min_from]. rewrite (H x (or_introl eq_refl)). cbn [bind].
  destruct (f x <? v)%float; apply IH; intros y Hy; apply H; right; exact Hy.
Qed.

Lemma py_min_pure (f : A -> float) (x : A) (l : list A) :
  (forall y, In y (x :: l) -> key y = Ok (f y)) ->
  py_min key (x :: l) = Ok (min_from f x (f x) l).
Proof.
  intros H. cbn [py_min]. rewrite (H x (or_introl eq_refl)). cbn [bind].
  apply min_scan_pure. intros y Hy. apply H. right; exact Hy.
Qed.

(** An item on which the key function raises makes the scan raise. *)
Lemma min_scan_raise (e0 : exn) (l : list A) (best : A) (v : float) (x : A) :
  (forall y e, key y = Raise e -> e = e0) ->
  In x l -> key x = Raise e0 ->
  min_scan key best v l = Raise e0.
Proof.
  intros Honly. revert best v; induction l as [|y l IH]; intros best v Hin Hx.
  - destruct Hin.
  - cbn [min_scan]. destruct (key y) as [vy|e] eqn:Hy.
    + cbn [bind]. destruct Hin as [-> | Hin]; [congruence|].
      destruct (vy <? v)%float; apply IH; assumption.
    + cbn [bind]. rewrite (Honly y e Hy). reflexivity.
Qed.

Lemma py_min_raise (e0 : exn) (l : list A) (x : A) :
  (forall y e, key y = Raise e -> e = e0) ->
  In x l -> key x = Raise e0 ->
  py_min key l = Raise e0.
Proof.
  intros Honly Hin Hx. destruct l as [|y l]; [destruct Hin|].
  cbn [py_min]. destruct (key y) as [vy|e] eqn:Hy.
  - cbn [bind]. destruct Hin as [-> | Hin]; [congruence|].
    exact (min_scan_raise e0 l y vy x Honly Hin Hx).
  - cbn [bind]. rewrite (Honly y e Hy). reflexivity.
Qed.

End MinScan.

(** * The spectral tables and [nearest_nm] *)

Module Spectral.

Local Open Scope float_scope.

Lemma keys_R_TABLE : keys R_TABLE = grid.
Proof. reflexivity. Qed.

Lemma keys_B_TABLE : keys B_TABLE = grid.
Proof. reflexivity. Qed.

(** Every key has an entry in both tables, and its [R] is [2.0]. *)
Lemma lookup_grid (k : Z) :
  In k grid ->
  lookup R_TABLE k = Some 2.0 /\ exists b, lookup B_TABLE k = Some b.
Proof.
  unfold grid; simpl; intros H.
  repeat (destruct H as [<- | H]; [split; [reflexivity | eexists; reflexivity]|]).
  destruct H.
Qed.

(** The key function of [nearest_nm] returns [dist] on an int that fits a
    float and raises on any other. *)
Lemma nearest_nm_key_fits (nm : float) (k : Z) :
  PyFloat.fits k = true -> nearest_nm_key nm k = Ok (dist nm k).
Proof.
  intros H. unfold nearest_nm_key, PyFloat.int_sub, PyFloat.float_of_int.
  rewrite H. reflexivity.
Qed.

Lemma nearest_nm_key_overflow (nm : float) (k : Z) :
  PyFloat.fits k = false -> nearest_nm_key nm k = Raise OverflowError.
Proof.
  intros H. unfold nearest_nm_key, PyFloat.int_sub, PyFloat.float_of_int.
  rewrite H. reflexivity.
Qed.

Lemma nearest_nm_key_raise (nm : float) (k : Z) (e : exn) :
  nearest_nm_key nm k = Raise e -> e = OverflowError.
Proof.
  destruct (PyFloat.fits k) eqn:H.
  - rewrite (nearest_nm_key_fits nm k H). discriminate.
  - rewrite (nearest_nm_key_overflow nm k H). congruence.
Qed.

(** The twelve keys of the tables fit a float. *)
Lemma grid_fits (k : Z) : In k grid -> PyFloat.fits k = true.
Proof.
  unfold grid; simpl; intros H.
  repeat (destruct H as [<- | H]; [vm_compute; reflexivity|]).
  destruct H.
Qed.

Lemma nearest_nm_unfold (nm : float) : nearest_nm nm = Ok (nearest_key nm).
Proof.
  unfold nearest_nm, nearest_nm_in. rewrite keys_R_TABLE.
  apply (py_min_pure (nearest_nm_key nm) (dist nm) 400%Z (tl grid)).
  intros k Hk. apply nearest_nm_key_fits, grid_fits, Hk.
Qed.

Lemma nearest_nm_inv (nm : float) (k : Z) :
  nearest_nm nm = Ok k -> k = nearest_key nm.
Proof. rewrite nearest_nm_unfold. congruence. Qed.

Lemma nearest_nm_in_grid (nm : float) :
  exists k, nearest_nm nm = Ok k /\ In k grid.
Proof.
  rewrite nearest_nm_unfold. eexists; split; [reflexivity|].
  unfold nearest_key.
  destruct (min_from_In (dist nm) (tl grid) 400%Z (dist nm 400%Z)) as [-> | H].
  - left; reflexivity.
  - right; exact H.
Qed.

Lemma grid_sorted : StronglySorted Z.lt grid.
Proof.
  unfold grid.
  repeat (apply SSorted_cons; [|repeat (apply Forall_cons; [lia|]); apply Forall_nil]).
  apply SSorted_nil.
Qed.

Lemma sorted_split (pre post : list Z) (r : Z) :
  StronglySorted Z.lt (pre ++ r :: post) ->
  forall x, In x (r :: post) -> (r <= x)%Z.
Proof.
  induction pre as [|a pre IH]; simpl; intros Hs x Hx.
  - apply StronglySorted_inv in Hs as [_ Hall].
    destruct Hx as [<- | Hx]; [lia|].
    rewrite Forall_forall in Hall. specialize (Hall x Hx). lia.
  - apply StronglySorted_inv in Hs as [Hs _]. exact (IH Hs x Hx).
Qed.

Lemma is_nan_false (x : float) : is_nan x = false -> Prim2SF x <> S754_nan.
Proof.
  unfold is_nan. rewrite eqb_spec. intros H Hx. rewrite Hx in H. discriminate.
Qed.

Lemma of_int_grid_finite (k : Z) :
  In k grid ->
  exists s m e, Prim2SF (PyFloat.of_int k) = S754_finite s m e.
Proof.
  unfold grid; simpl; intros H.
  repeat (destruct H as [<- | H];
          [vm_compute; do 3 eexists; reflexivity|]).
  destruct H.
Qed.

(** The distance to a grid point is a number when the wavelength is. *)
Lemma dist_not_nan (nm : float) (k : Z) :
  In k grid -> is_nan nm = false -> Prim2SF (dist nm k) <> S754_nan.
Proof.
  intros Hk Hnm. unfold dist. rewrite abs_spec, sub_spec.
  destruct (of_int_grid_finite k Hk) as (s & m & e & ->).
  apply NoNaN.SFabs_not_nan, NoNaN.SFsub_finite_not_nan, is_nan_false, Hnm.
Qed.

(** No grid point is strictly nearer than the one returned. *)
Lemma nearest_nm_least (nm : float) (k k' : Z) :
  nearest_nm nm = Ok k -> In k' grid -> (dist nm k' <? dist nm k) = false.
Proof.
  intros Hk Hk'. apply nearest_nm_inv in Hk. subst k.
  apply min_from_least. destruct Hk' as [<- | Hk']; [left|right]; auto.
Qed.

(** Among equidistant grid points the lowest is returned. *)
Lemma nearest_nm_tie_lowest (nm : float) (k k' : Z) :
  nearest_nm nm = Ok k -> In k' grid ->
  (dist nm k' =? dist nm k) = true -> (k <= k')%Z.
Proof.
  intros Hk Hk' He. apply nearest_nm_inv in Hk. subst k.
  destruct (min_from_first (dist nm) (tl grid) 400%Z)
    as [[Hr _] | [Hlt (pre & post & Hl & Hpre)]]; cbv zeta in *;
    fold (nearest_key nm) in *.
  - rewrite Hr. clear -Hk'.
    unfold grid in Hk'; simpl in Hk'.
    repeat (destruct Hk' as [<- | Hk']; [lia|]). destruct Hk'.
  - set (r := nearest_key nm) in *.
    destruct Hk' as [<- | Hk'].
    + rewrite (FloatOrder.ltb_neq _ _ Hlt) in He. discriminate.
    + change (In k' (tl grid)) in Hk'. rewrite Hl in Hk'.
      apply in_app_or in Hk' as [Hk' | Hk'].
      * rewrite (Hpre _ Hk') in He. discriminate.
      * apply (sorted_split (400%Z :: pre) post r); [|exact Hk'].
        change (StronglySorted Z.lt (400%Z :: (pre ++ r :: post))).
        rewrite <- Hl. exact grid_sorted.
Qed.

End Spectral.

(** * The parser *)

Module ParseFacts.

Import Str.

Ltac by_chars c := destruct c as [[] [] [] [] [] [] [] []]; vm_compute; try discriminate; auto.

Lemma space_facts (c : ascii) :
  isspace c = true ->
  lower_char c = c /\ Ascii.eqb c micro = false /\ in_num_class c = false.
Proof. by_chars c. Qed.

Lemma num_facts (c : ascii) :
  in_num_class c = true ->
  isspace c = false /\ lower_char c = c /\ Ascii.eqb c micro = false.
Proof. by_chars c. Qed.

Lemma prefix_facts (c l : ascii) (sc : float) :
  In (l, sc) spec_scales ->
  lower_char c = lower_char l ->
  c <> "M"%char ->
  isspace c = false
  /\ isspace (lower_char c) = false
  /\ Ascii.eqb (lower_char c) micro = false
  /\ in_num_class (lower_char c) = false
  /\ in_prefix_class (lower_char c) = true
  /\ scale_lookup scale_table (String (lower_char c) EmptyString) = Some sc.
Proof.
  unfold spec_scales. simpl.
  intros H.
  repeat (destruct H as [[= <- <-] | H];
          [destruct c as [[] [] [] [] [] [] [] []]; vm_compute;
           try discriminate; try congruence; auto 10|]).
  destruct H.
Qed.

Lemma lstrip_spaces (ws s : list ascii) :
  forallb isspace ws = true -> lstrip (ws ++ s) = lstrip s.
Proof.
  induction ws as [|c ws IH]; simpl; [reflexivity|].
  intros H. apply andb_prop in H as [Hc Hws]. rewrite Hc. auto.
Qed.

Lemma lstrip_nonspace (c : ascii) (s : list ascii) :
  isspace c = false -> lstrip (c :: s) = c :: s.
Proof. intros H; simpl; now rewrite H. Qed.

Lemma rstrip_spaces (s ws : list ascii) :
  forallb isspace ws = true -> rstrip (s ++ ws) = rstrip s.
Proof.
  intros H. unfold rstrip. rewrite rev_app_distr, lstrip_spaces; [reflexivity|].
  rewrite forallb_forall in *. intros x Hx. apply H. now apply in_rev.
Qed.

Lemma rstrip_nonspace (s : list ascii) (c : ascii) :
  isspace c = false -> rstrip (s ++ [c]) = s ++ [c].
Proof.
  intros H. unfold rstrip. rewrite rev_app_distr. simpl.
  rewrite H. simpl. now rewrite rev_involutive.
Qed.

Lemma span_spec (p : ascii -> bool) (s a b : list ascii) :
  span p s = (a, b) -> s = a ++ b /\ forallb p a = true.
Proof.
  revert a b; induction s as [|c s IH]; simpl; intros a b H.
  - injection H as <- <-. auto.
  - destruct (p c) eqn:Hc.
    + destruct (span p s) as [a' b']. injection H as <- <-.
      destruct (IH a' b' eq_refl) as [-> Ha]. simpl. rewrite Hc. auto.
    + injection H as <- <-. auto.
Qed.

(** The longest run: the scan stops at the first character outside [p]. *)
Lemma span_app (p : ascii -> bool) (a b : list ascii) :
  forallb p a = true ->
  match b with [] => True | c :: _ => p c = false end ->
  span p (a ++ b) = (a, b).
Proof.
  induction a as [|c a IH]; simpl; intros Ha Hb.
  - destruct b as [|c b]; [reflexivity|]. simpl. now rewrite Hb.
  - apply andb_prop in Ha as [Hc Ha]. rewrite Hc, (IH Ha Hb). reflexivity.
Qed.

Lemma map_id_on {A : Type} (f : A -> A) (l : list A) :
  (forall x, In x l -> f x = x) -> map f l = l.
Proof.
  induction l as [|x l IH]; simpl; intros H; [reflexivity|].
  rewrite H by auto. rewrite IH by auto. reflexivity.
Qed.

(** [float] accepts only digits and dots here, and at least one character. *)
Lemma float_of_str_class (num : list ascii) (x : float) :
  float_of_str num = Ok x ->
  forallb in_num_class num = true /\ num <> [].
Proof.
  unfold float_of_str.
  destruct (span isdigit num) as [ip rest] eqn:Hs.
  apply span_spec in Hs as [-> Hip].
  assert (Hd : forall l, forallb isdigit l = true ->
                         forallb in_num_class l = true).
  { intros l Hl. rewrite forallb_forall in *. intros c Hc.
    unfold in_num_class. now rewrite (Hl c Hc). }
  destruct rest as [|c rest].
  - destruct ip; [discriminate|]. intros _. rewrite app_nil_r.
    split; [auto | discriminate].
  - destruct (Ascii.eqb c ".") eqn:Hc; [|discriminate].
    apply Ascii.eqb_eq in Hc. subst c.
    destruct (span isdigit rest) as [fp junk] eqn:Hs.
    apply span_spec in Hs as [-> Hfp].
    destruct junk; [|discriminate]. intros _.
    split; [|destruct ip; discriminate].
    rewrite app_nil_r, forallb_app. simpl. rewrite (Hd _ Hip), (Hd _ Hfp).
    reflexivity.
Qed.


Lemma forallb_In {A : Type} (p : A -> bool) (l : list A) (x : A) :
  forallb p l = true -> In x l -> p x = true.
Proof. intros H. rewrite forallb_forall in H. apply H. Qed.

(** Lower-casing and the micro-sign replacement leave digits, dots and
    white space alone. *)
Lemma normalise_id (s : list ascii) :
  (forall c, In c s -> in_num_class c = true \/ isspace c = true) ->
  replace_char micro "u" (lower s) = s.
Proof.
  intros H. unfold replace_char, lower. rewrite map_map.
  apply map_id_on. intros c Hc.
  destruct (H c Hc) as [Hn | Hw].
  - destruct (num_facts c Hn) as (_ & -> & ->). reflexivity.
  - destruct (space_facts c Hw) as (-> & -> & _). reflexivity.
Qed.

Lemma normalise_snoc (s : list ascii) (c : ascii) :
  (forall a, In a s -> in_num_class a = true \/ isspace a = true) ->
  Ascii.eqb (lower_char c) micro = false ->
  replace_char micro "u" (lower (s ++ [c])) = s ++ [lower_char c].
Proof.
  intros Hs Hc.
  assert (E : replace_char micro "u" (lower (s ++ [c]))
              = replace_char micro "u" (lower s)
                ++ [if Ascii.eqb (lower_char c) micro then "u"%char
                    else lower_char c]).
  { unfold replace_char, lower. now rewrite !map_app. }
  rewrite E, Hc, (normalise_id s Hs). reflexivity.
Qed.

Lemma strip_core (ws1 body ws3 : list ascii) (first last : ascii)
      (mid : list ascii) :
  forallb isspace ws1 = true -> forallb isspace ws3 = true ->
  isspace first = false -> isspace last = false ->
  body = first :: mid -> (exists pre, body = pre ++ [last]) ->
  strip (ws1 ++ body ++ ws3) = body.
Proof.
  intros H1 H3 Hf Hl Hb [pre Hp]. unfold strip.
  rewrite (lstrip_spaces _ _ H1). rewrite Hb at 1. simpl.
  rewrite Hf. change (first :: mid ++ ws3) with ((first :: mid) ++ ws3).
  rewrite <- Hb, (rstrip_spaces _ _ H3), Hp.
  apply rstrip_nonspace, Hl.
Qed.

Lemma parse_with_prefix (ws1 num ws2 ws3 : list ascii) (c l : ascii)
      (sc x : float) :
  forallb isspace ws1 = true -> forallb isspace ws2 = true ->
  forallb isspace ws3 = true ->
  float_of_str num = Ok x ->
  In (l, sc) spec_scales -> lower_char c = lower_char l -> c <> "M"%char ->
  parse_value (string_of_list_ascii (ws1 ++ num ++ ws2 ++ c :: ws3))
  = Ok (x * sc)%float.
Proof.
  intros H1 H2 H3 Hx Hl Hc HM.
  destruct (float_of_str_class num x Hx) as [Hnum Hne].
  destruct (prefix_facts c l sc Hl Hc HM) as (Hcs & Hcs' & Hcm & Hcn & Hcp & Hsc).
  destruct num as [|d num']; [congruence|].
  assert (Hd : isspace d = false).
  { apply (num_facts d). apply (forallb_In _ _ _ Hnum). left; reflexivity. }
  unfold parse_value, normalised. rewrite list_ascii_of_string_of_list_ascii.
  replace (ws1 ++ (d :: num') ++ ws2 ++ c :: ws3)
    with (ws1 ++ ((d :: num') ++ ws2 ++ [c]) ++ ws3)
    by (now rewrite <- !app_assoc).
  set (body := (d :: num') ++ ws2 ++ [c]).
  rewrite (strip_core ws1 body ws3 d c (num' ++ ws2 ++ [c]) H1 H3 Hd Hcs eq_refl)
    by (exists ((d :: num') ++ ws2); subst body; now rewrite <- app_assoc).
  subst body.
  replace ((d :: num') ++ ws2 ++ [c]) with (((d :: num') ++ ws2) ++ [c])
    by (now rewrite <- app_assoc).
  rewrite (normalise_snoc _ c).
  2:{ intros a Ha. apply in_app_or in Ha as [Ha | Ha].
      - left. exact (forallb_In _ _ _ Hnum Ha).
      - right. exact (forallb_In _ _ _ H2 Ha). }
  2: exact Hcm.
  rewrite <- app_assoc. unfold re_match.
  rewrite (span_app in_num_class (d :: num') (ws2 ++ [lower_char c]) Hnum).
  2:{ destruct ws2 as [|w ws2]; simpl; [exact Hcn|].
      simpl in H2. apply andb_prop in H2 as [Hw _].
      apply (space_facts w Hw). }
  rewrite (lstrip_spaces _ _ H2). simpl lstrip. rewrite Hcs', Hcp.
  rewrite Hx. cbn [bind]. simpl string_of_list_ascii. rewrite Hsc.
  reflexivity.
Qed.

Lemma parse_without_prefix (ws1 num ws3 : list ascii) (x : float) :
  forallb isspace ws1 = true -> forallb isspace ws3 = true ->
  float_of_str num = Ok x ->
  parse_value (string_of_list_ascii (ws1 ++ num ++ ws3)) = Ok (x * 1.0)%float.
Proof.
  intros H1 H3 Hx.
  destruct (float_of_str_class num x Hx) as [Hnum Hne].
  destruct (exists_last Hne) as (pre & e & Hpe).
  assert (Hn : exists d num', num = d :: num')
    by (destruct num as [|d num']; [congruence | eauto]).
  destruct Hn as (d & num' & Hn).
  assert (Hd : isspace d = false).
  { apply (num_facts d). apply (forallb_In _ _ _ Hnum). rewrite Hn.
    left; reflexivity. }
  assert (He : isspace e = false).
  { apply (num_facts e). apply (forallb_In _ _ _ Hnum). rewrite Hpe.
    apply in_or_app. right; left; reflexivity. }
  unfold parse_value, normalised. rewrite list_ascii_of_string_of_list_ascii.
  rewrite (strip_core ws1 num ws3 d e num' H1 H3 Hd He Hn)
    by (exists pre; exact Hpe).
  rewrite normalise_id
    by (intros a Ha; left; exact (forallb_In _ _ _ Hnum Ha)).
  unfold re_match.
  rewrite <- (app_nil_r num) at 1.
  rewrite (span_app in_num_class num [] Hnum I).
  rewrite Hn at 1. simpl lstrip. cbv iota.
  rewrite Hx. reflexivity.
Qed.

End ParseFacts.

(** * The evaluator *)

Section EvaluatorFacts.

Variable float_pow : float -> float -> float.

Local Open Scope float_scope.

(** The guarded quotient [a / e if e > 0 else float('inf')] never raises. *)
Lemma guarded_div (a e : float) :
  (if PyFloat.gtb e 0 then PyFloat.div a e else Ok infinity)
  = Ok (if 0 <? e then a / e else infinity).
Proof.
  unfold PyFloat.gtb, PyFloat.div.
  destruct (0 <? e) eqn:He; [|reflexivity].
  now rewrite (FloatOrder.ltb_neq _ _ He).
Qed.

Lemma determine_governing_total (d : float) (tm pm : option float) :
  exists g, determine_governing d tm pm = Ok g.
Proof.
  unfold determine_governing.
  destruct (d <=? 6.2e-4); [eexists; reflexivity|].
  destruct tm as [t|], pm as [p|]; simpl;
    repeat match goal with
           | |- context [?x =? 0] => destruct (x =? 0); simpl
           end; eexists; reflexivity.
Qed.

(** What the computation part leaves in the local variables; it succeeds
    unless one of the two unguarded divisions has a zero divisor. *)
Lemma hazard_locals_ok (w p d r pd : float) :
  (r =? 0) = false ->
  (aperture_cm2 float_pow =? 0) = false ->
  exists st,
    hazard_locals float_pow w p d r pd = Ok st
    /\ nm st = nearest_key w
    /\ lookup B_TABLE (nm st) = Some (B st)
    /\ R st = apply_substitution_rules pd d 2.0
    /\ A_cm2 st = aperture_cm2 float_pow
    /\ E_pulse st = p / r
    /\ E_pulse_eff st = R st * E_pulse st
    /\ single_margin st
       = (if 0 <? E_pulse_eff st then single_limit / E_pulse_eff st
          else infinity)
    /\ E_eff st = R st * p * d
    /\ thermal_limit st
       = (if 6.2e-4 <? d then Some (1.7 * float_pow d 0.75 * 1e-3) else None)
    /\ thermal_margin st
       = (if 6.2e-4 <? d
          then Some (if 0 <? E_eff st
                     then (1.7 * float_pow d 0.75 * 1e-3) / E_eff st
                     else infinity)
          else None)
    /\ E_photo st = (p * B st) / A_cm2 st
    /\ H_photo st = (if 6.2e-4 <? d then Some (E_photo st * d) else None)
    /\ photo_margin st
       = (if 6.2e-4 <? d
          then Some (if 0 <? E_photo st * d
                     then photo_limit / (E_photo st * d) else infinity)
          else None)
    /\ determine_governing d (thermal_margin st) (photo_margin st)
       = Ok (governing st)
    /\ t_safe_photo st
       = (if 0 <? E_photo st then photo_limit / E_photo st else infinity).
Proof.
  intros Hr HA. unfold hazard_locals.
  rewrite Spectral.nearest_nm_unfold. cbn [bind].
  destruct (Spectral.nearest_nm_in_grid w) as (k & Hk & Hin).
  apply Spectral.nearest_nm_inv in Hk. rewrite <- Hk.
  destruct (Spectral.lookup_grid k Hin) as [HR [b HB]].
  unfold getitem. rewrite HR, HB. cbn [of_option bind].
  unfold PyFloat.div at 1. rewrite Hr. cbn [bind].
  rewrite !guarded_div. cbn [bind].
  unfold PyFloat.div at 1. rewrite HA. cbn [bind].
  unfold PyFloat.gtb at 1 2.
  destruct (6.2e-4 <? d) eqn:Hd; rewrite ?guarded_div; cbn [bind].
  - match goal with
    | |- context [determine_governing d ?tm ?pm] =>
        destruct (determine_governing_total d tm pm) as [g Hg]; rewrite Hg
    end.
    cbn [bind]. eexists; split; [reflexivity|]. cbn.
    repeat split; try reflexivity; assumption.
  - match goal with
    | |- context [determine_governing d ?tm ?pm] =>
        destruct (determine_governing_total d tm pm) as [g Hg]; rewrite Hg
    end.
    cbn [bind]. eexists; split; [reflexivity|]. cbn.
    repeat split; try reflexivity; assumption.
Qed.

(** A zero divisor in either unguarded quotient is a [ZeroDivisionError]. *)
Lemma hazard_locals_zero_div (w p d r pd : float) :
  (r =? 0) = true \/ (aperture_cm2 float_pow =? 0) = true ->
  hazard_locals float_pow w p d r pd = Raise ZeroDivisionError.
Proof.
  intros H. unfold hazard_locals.
  rewrite Spectral.nearest_nm_unfold. cbn [bind].
  destruct (Spectral.nearest_nm_in_grid w) as (k & Hk & Hin).
  apply Spectral.nearest_nm_inv in Hk. rewrite <- Hk.
  destruct (Spectral.lookup_grid k Hin) as [HR [b HB]].
  unfold getitem. rewrite HR, HB. cbn [of_option bind].
  unfold PyFloat.div at 1.
  destruct (r =? 0) eqn:Hr; [reflexivity|].
  destruct H as [H | HA]; [discriminate|]. cbn [bind].
  rewrite !guarded_div. cbn [bind].
  unfold PyFloat.gtb at 1.
  destruct (6.2e-4 <? d); rewrite ?guarded_div; cbn [bind];
    unfold PyFloat.div at 1; rewrite HA; reflexivity.
Qed.

Lemma hazard_locals_Ok_inv (w p d r pd : float) (st : Locals) :
  hazard_locals float_pow w p d r pd = Ok st ->
  (r =? 0) = false /\ (aperture_cm2 float_pow =? 0) = false.
Proof.
  intros H.
  destruct (r =? 0) eqn:Hr.
  - rewrite hazard_locals_zero_div in H by (left; exact Hr). discriminate.
  - destruct (aperture_cm2 float_pow =? 0) eqn:HA; [|split; reflexivity].
    rewrite hazard_locals_zero_div in H by (right; exact HA). discriminate.
Qed.

(** The only exception the computation part can raise is the division
    error of its two unguarded quotients. *)
Lemma hazard_locals_raise (w p d r pd : float) (e : exn) :
  hazard_locals float_pow w p d r pd = Raise e -> e = ZeroDivisionError.
Proof.
  intros H.
  destruct (r =? 0) eqn:Hr.
  - rewrite hazard_locals_zero_div in H by (left; exact Hr). congruence.
  - destruct (aperture_cm2 float_pow =? 0) eqn:HA.
    + rewrite hazard_locals_zero_div in H by (right; exact HA). congruence.
    + destruct (hazard_locals_ok w p d r pd Hr HA) as (st & Hst & _).
      congruence.
Qed.

(** A successful computation part is always followed by a complete report:
    the optional values are formatted only where they were assigned. *)
Lemma report_total (w p d r pd : float) (st : Locals) :
  hazard_locals float_pow w p d r pd = Ok st ->
  exists out, report p d r pd st = (out, Ok tt) /\ out <> [].
Proof.
  intros H. destruct (hazard_locals_Ok_inv _ _ _ _ _ _ H) as [Hr HA].
  destruct (hazard_locals_ok w p d r pd Hr HA)
    as (st' & Hst & _ & _ & _ & _ & _ & _ & _ & _ & Htl & Htm & _ & HH & Hpm & _).
  rewrite H in Hst. injection Hst as <-.
  unfold report, PyFloat.gtb. revert Htl Htm HH Hpm.
  destruct (6.2e-4 <? d); intros Htl Htm HH Hpm;
    rewrite ?Htl, ?Htm, ?HH, ?Hpm; cbn;
    eexists; (split; [reflexivity | discriminate]).
Qed.

Lemma iso15004_smallspot_unfold (w p d r pd : float) :
  iso15004_smallspot float_pow w p d r pd
  = match hazard_locals float_pow w p d r pd with
    | Ok st =>
        let (out, res) := report p d r pd st in
        (out, match res with Ok _ => Ok PyNone | Raise e => Raise e end)
    | Raise e => ([], Raise e)
    end.
Proof.
  unfold iso15004_smallspot, lift, io_bind, io_ret.
  destruct (hazard_locals float_pow w p d r pd) as [st|e]; [|reflexivity].
  destruct (report p d r pd st) as [out [[]|e]]; simpl;
    rewrite ?app_nil_r; reflexivity.
Qed.

End EvaluatorFacts.

(** * The claims *)

(** The second rule alone, on the tabulated [R = 2.0]: the first rule needs
    [R < 1.0] and so leaves 2.0 as it is, whatever the pulse duration. *)
Lemma substitution_on_table_value (pulse_duration_s dwell_time_s : float) :
  apply_substitution_rules pulse_duration_s dwell_time_s 2.0
  = (if (10.0 <? dwell_time_s)%float then 1.0 else 2.0)%float.
Proof.
  unfold apply_substitution_rules, PyFloat.gtb.
  change (2.0 <? 1.0)%float with false. rewrite andb_false_r.
  change (1.0 <? 2.0)%float with true. rewrite andb_true_r.
  reflexivity.
Qed.

(** C1, the code at two inputs with [dwell_time_s > 6.2e-4].  At 1e305 W the
    photochemical dose overflows, [photo_margin] is 0.0 and below
    [thermal_margin], yet the governing hazard is "Thermal"; at 1e308 W both
    margins are present and 0.0 and the governing hazard is "Indeterminate".
    The truth test [if thermal_margin and photo_margin] takes a zero margin
    for a missing one. *)
Theorem zero_margin_counts_as_missing :
  (exists st tm pm,
      hazard_locals pow_ref 430 1e305 1.0 59e6 6e-12 = Ok st
      /\ (6.2e-4 <? 1.0)%float = true
      /\ thermal_margin st = Some tm /\ photo_margin st = Some pm
      /\ (pm <? tm)%float = true
      /\ governing st = "Thermal"%string)
  /\ (exists st tm pm,
        hazard_locals pow_ref 430 1e308 1.0 59e6 6e-12 = Ok st
        /\ thermal_margin st = Some tm /\ photo_margin st = Some pm
        /\ governing st = "Indeterminate"%string).
Proof.
  split.
  - eexists; exists 8.4999999999999987e-309%float, 0%float.
    vm_compute. repeat split; reflexivity.
  - eexists; exists 0%float, 0%float.
    vm_compute. repeat split; reflexivity.
Qed.

(** C2: when [dwell_time_s <= 6.2e-4] every result of the computation has
    [thermal_limit], [thermal_margin], [H_photo] and [photo_margin] unset
    ([None], not zero) and the governing hazard is the fixed string; and the
    computation does produce a result unless a quotient has a zero divisor. *)
Theorem short_dwell_has_no_hazard_fields
        (float_pow : float -> float -> float)
        (wavelength_nm power_pupil_W dwell_time_s rep_rate_Hz pulse_duration_s
         : float) :
  (dwell_time_s <=? 6.2e-4)%float = true ->
  (forall st,
      hazard_locals float_pow wavelength_nm power_pupil_W dwell_time_s
                    rep_rate_Hz pulse_duration_s = Ok st ->
      thermal_limit st = None /\ thermal_margin st = None
      /\ H_photo st = None /\ photo_margin st = None
      /\ governing st = "Thermal only (photochemical not applicable)"%string)
  /\ ((rep_rate_Hz =? 0)%float = false ->
      (aperture_cm2 float_pow =? 0)%float = false ->
      exists st,
        hazard_locals float_pow wavelength_nm power_pupil_W dwell_time_s
                      rep_rate_Hz pulse_duration_s = Ok st).
Proof.
  intros Hd. split.
  - intros st Hst.
    destruct (hazard_locals_Ok_inv _ _ _ _ _ _ _ Hst) as [Hr HA].
    destruct (hazard_locals_ok float_pow wavelength_nm power_pupil_W
                dwell_time_s rep_rate_Hz pulse_duration_s Hr HA)
      as (st' & Hst' & _ & _ & _ & _ & _ & _ & _ & _ & Htl & Htm & _ & HH
          & Hpm & Hg & _).
    rewrite Hst in Hst'. injection Hst' as <-.
    rewrite (FloatOrder.leb_not_gtb _ _ Hd) in Htl, Htm, HH, Hpm.
    unfold determine_governing in Hg. rewrite Hd in Hg.
    repeat split; congruence.
  - intros Hr HA.
    destruct (hazard_locals_ok float_pow wavelength_nm power_pupil_W
                dwell_time_s rep_rate_Hz pulse_duration_s Hr HA)
      as (st & Hst & _).
    exists st; exact Hst.
Qed.

(** C2 at wavelength 400 nm, 1 mW, 10 microseconds. *)
Lemma short_dwell_has_no_hazard_fields_witness :
  exists st,
    hazard_locals pow_ref 400 1e-3 1e-5 59e6 6e-12 = Ok st
    /\ thermal_limit st = None /\ thermal_margin st = None
    /\ H_photo st = None /\ photo_margin st = None
    /\ governing st = "Thermal only (photochemical not applicable)"%string.
Proof.
  destruct (short_dwell_has_no_hazard_fields
              pow_ref 400 1e-3 1e-5 59e6 6e-12 eq_refl) as [Hall Hex].
  destruct (Hex eq_refl eq_refl) as [st Hst].
  exists st. split; [exact Hst | exact (Hall st Hst)].
Defined.

(** C3, as stated, fails: the table has twelve keys, but they are not the
    points 400, 410, ..., 500 (there are eleven of those); 455 is a key, is
    returned for the wavelength 455, and is not a multiple-of-10 grid point.
    Besides, the distance is the rounded [abs (k - nm)]: binary64 numbers
    near 1e17 are 16 apart, [490 - 1e17] and [500 - 1e17] both round to
    [496 - 1e17], the two keys tie and 490 is returned although 500 is the
    nearer one. *)
Lemma grid_is_not_10nm_steps :
  List.length (keys R_TABLE) = 12%nat
  /\ List.length spec_grid_10nm = 11%nat
  /\ nearest_nm 455 = Ok 455%Z
  /\ In 455%Z (keys R_TABLE)
  /\ existsb (Z.eqb 455) spec_grid_10nm = false
  /\ nearest_nm 1e17 = Ok 490%Z
  /\ (dist 1e17 500 =? dist 1e17 490)%float = true.
Proof. repeat split; vm_compute; auto 20. Qed.

(** C3, amended: the table has exactly the twelve keys 400, 410, ..., 450,
    455, 460, ..., 500; for every wavelength [nearest_nm] succeeds and returns
    a key such that no key is strictly nearer (for a wavelength that is a
    number, its distance [abs (k - nm)] is at most that of every key), and
    among equidistant keys it returns the lowest. *)
Theorem nearest_nm_spec :
  keys R_TABLE
  = [400; 410; 420; 430; 440; 450; 455; 460; 470; 480; 490; 500]%Z
  /\ List.length (keys R_TABLE) = 12%nat
  /\ forall nm : float,
      exists k,
        nearest_nm nm = Ok k
        /\ In k (keys R_TABLE)
        /\ forall k', In k' (keys R_TABLE) ->
             (dist nm k' <? dist nm k)%float = false
             /\ (is_nan nm = false -> (dist nm k <=? dist nm k')%float = true)
             /\ ((dist nm k' =? dist nm k)%float = true -> (k <= k')%Z).
Proof.
  split; [reflexivity|split; [reflexivity|]].
  intros nm. destruct (Spectral.nearest_nm_in_grid nm) as (k & Hk & Hin).
  exists k. split; [exact Hk|split; [exact Hin|]].
  intros k' Hk'. change (In k' grid) in Hk'.
  pose proof (Spectral.nearest_nm_least nm k k' Hk Hk') as Hleast.
  split; [exact Hleast|split].
  - intros Hnan.
    apply FloatOrder.not_ltb_leb; auto using Spectral.dist_not_nan.
  - apply Spectral.nearest_nm_tie_lowest; assumption.
Qed.

(** The amended C3 at the wavelength 452.5, midway between 450 and 455. *)
Lemma nearest_nm_spec_witness :
  nearest_nm 452.5 = Ok 450%Z
  /\ (dist 452.5 455 =? dist 452.5 450)%float = true
  /\ (dist 452.5 450 <=? dist 452.5 500)%float = true.
Proof.
  destruct nearest_nm_spec as (_ & _ & H).
  destruct (H 452.5%float) as (k & Hk & _ & Hall).
  assert (k = 450%Z) by (vm_compute in Hk; congruence). subst k.
  split; [exact Hk|]. split; [reflexivity|].
  apply (Hall 500%Z); [simpl; auto 20 | reflexivity].
Defined.

(** C4, the code at [rep_rate_Hz = 0]: the quotient
    [power_pupil_W / rep_rate_Hz] is not guarded, so every call raises
    [ZeroDivisionError] before anything is printed. *)
Theorem zero_rep_rate_raises
        (float_pow : float -> float -> float)
        (wavelength_nm power_pupil_W dwell_time_s pulse_duration_s : float) :
  iso15004_smallspot float_pow wavelength_nm power_pupil_W dwell_time_s
                     0 pulse_duration_s
  = ([], Raise ZeroDivisionError).
Proof.
  rewrite iso15004_smallspot_unfold.
  now rewrite hazard_locals_zero_div by (left; reflexivity).
Qed.

(** C5, as stated, fails: [parse_value("5u")] is the binary64 product
    [5.0 * 1e-6], which is the float just below [5e-6] and does not compare
    equal to it. *)
Lemma parse_5u_is_not_5e_6 :
  parse_value "5u" = Ok (5 * 1e-6)%float
  /\ ((5 * 1e-6) =? 5e-6)%float = false
  /\ next_up (5 * 1e-6)%float = 5e-6%float.
Proof. repeat split; vm_compute; reflexivity. Qed.

(** C5, amended: on a decimal number (digits with at most one dot) that may
    be followed by a prefix letter, white space around and between them
    ignored and the letter taken in either case, [parse_value] returns the
    binary64 product of [float(number)] and the scale T=1e12, G=1e9, k=1e3,
    m=1e-3, u=1e-6, n=1e-9, p=1e-12, f=1e-15, and of 1.0 without a letter
    (the capital "M" is left out of this statement).  So [parse("5u")] is
    [5.0 * 1e-6], and [parse("10m") == 1e-2], [parse("6p") == 6e-12],
    [parse("2n") == 2e-9], [parse("100") == 100.0]. *)
Theorem parse_value_scales :
  (forall (ws1 num ws2 ws3 : list ascii) (c l : ascii) (sc x : float),
      forallb Str.isspace ws1 = true -> forallb Str.isspace ws2 = true ->
      forallb Str.isspace ws3 = true ->
      float_of_str num = Ok x ->
      In (l, sc) spec_scales ->
      Str.lower_char c = Str.lower_char l -> c <> "M"%char ->
      parse_value (string_of_list_ascii (ws1 ++ num ++ ws2 ++ c :: ws3))
      = Ok (x * sc)%float)
  /\ (forall (ws1 num ws3 : list ascii) (x : float),
        forallb Str.isspace ws1 = true -> forallb Str.isspace ws3 = true ->
        float_of_str num = Ok x ->
        parse_value (string_of_list_ascii (ws1 ++ num ++ ws3))
        = Ok (x * 1.0)%float)
  /\ parse_value "5u" = Ok (5 * 1e-6)%float
  /\ parse_value "10m" = Ok 1e-2%float
  /\ parse_value "6p" = Ok 6e-12%float
  /\ parse_value "2n" = Ok 2e-9%float
  /\ parse_value "100" = Ok 100.0%float.
Proof.
  split; [exact ParseFacts.parse_with_prefix|].
  split; [exact ParseFacts.parse_without_prefix|].
  repeat split; vm_compute; reflexivity.
Qed.

(** The amended C5 on [" 6 P  "] and on ["2.5 "]. *)
Lemma parse_value_scales_witness :
  parse_value " 6 P  " = Ok (6 * 1e-12)%float
  /\ parse_value "2.5 " = Ok (2.5 * 1.0)%float.
Proof.
  destruct parse_value_scales as (H1 & H2 & _).
  split.
  - apply (H1 [" "%char] ["6"%char] [" "%char] [" "%char; " "%char]
              "P"%char "p"%char 1e-12%float 6%float);
      try reflexivity; [simpl; auto 10 | discriminate].
  - apply (H2 [] ["2"%char; "."%char; "5"%char] [" "%char] 2.5%float);
      reflexivity.
Defined.

(** C6, the code on strings that do not have the shape
    [<number><optional prefix>]: the pattern is matched at the start of the
    string only, so text after the match is ignored and the call returns a
    value instead of raising.  ["1e-3"] is read as 1.0. *)
Theorem trailing_text_is_ignored :
  parse_value "5x" = Ok 5%float
  /\ parse_value "1e-3" = Ok 1%float
  /\ parse_value "12 kilograms" = Ok 12000%float
  /\ (exists msg, parse_value "" = Raise (ValueError msg))
  /\ (exists msg, parse_value "abc" = Raise (ValueError msg)).
Proof. repeat split; vm_compute; try reflexivity; eexists; reflexivity. Qed.

(** C7: the two substitution rules, in order.  The first sets [R] to 1.0 when
    [pulse_duration_s < 1e-11] and [R < 1.0]; the second sets it to 1.0 when
    [dwell_time_s > 10.0] and [R > 1.0]; when neither applies [R] is kept; the
    first never changes an [R >= 1.0].  The evaluator applies them, for every
    input on which it completes, to the weight [R_TABLE[nm]] of the resolved
    wavelength, and the result is the [R] of [E_pulse_eff = R * E_pulse] and
    of [E_eff = R * power * dwell]: as every tabulated weight is 2.0, [R] is
    1.0 for [dwell_time_s > 10.0] and 2.0 otherwise.  In particular
    [dwell_time_s = 20.0] gives [R = 1.0], visible in
    [E_pulse_eff = 1.0 * E_pulse]. *)
Theorem substitution_rules :
  (forall pd d R0,
      (pd <? 1e-11)%float = true -> (R0 <? 1.0)%float = true ->
      apply_substitution_rules pd d R0 = 1.0%float)
  /\ (forall pd d R0,
        (10.0 <? d)%float = true -> (1.0 <? R0)%float = true ->
        apply_substitution_rules pd d R0 = 1.0%float)
  /\ (forall pd d R0,
        ((pd <? 1e-11) && (R0 <? 1.0))%float = false ->
        ((10.0 <? d) && (1.0 <? R0))%float = false ->
        apply_substitution_rules pd d R0 = R0)
  /\ (forall pd d R0,
        (1.0 <=? R0)%float = true ->
        apply_substitution_rules pd d R0
        = (if ((10.0 <? d) && (1.0 <? R0))%float then 1.0%float else R0))
  /\ (forall float_pow w p d r pd st,
        hazard_locals float_pow w p d r pd = Ok st ->
        exists R0,
          nearest_nm w = Ok (nm st)
          /\ getitem R_TABLE (nm st) = Ok R0
          /\ R st = apply_substitution_rules pd d R0
          /\ R st = (if (10.0 <? d)%float then 1.0 else 2.0)%float
          /\ E_pulse_eff st = (R st * (p / r))%float
          /\ E_eff st = (R st * p * d)%float)
  /\ (forall float_pow w p d r pd,
        (r =? 0)%float = false ->
        (aperture_cm2 float_pow =? 0)%float = false ->
        exists st, hazard_locals float_pow w p d r pd = Ok st)
  /\ (forall float_pow w p r pd,
        (r =? 0)%float = false ->
        (aperture_cm2 float_pow =? 0)%float = false ->
        exists st,
          hazard_locals float_pow w p 20.0 r pd = Ok st
          /\ R st = 1.0%float
          /\ E_pulse_eff st = (1.0 * (p / r))%float).
Proof.
  unfold apply_substitution_rules, PyFloat.gtb.
  repeat match goal with |- _ /\ _ => split end.
  - intros pd d R0 Hpd HR. rewrite Hpd, HR. cbn [andb].
    change (1.0 <? 1.0)%float with false. now rewrite andb_false_r.
  - intros pd d R0 Hd HR. rewrite (FloatOrder.ltb_asym _ _ HR).
    rewrite andb_false_r, Hd, HR. reflexivity.
  - intros pd d R0 H1 H2. rewrite H1, H2. reflexivity.
  - intros pd d R0 HR.
    rewrite (FloatOrder.leb_not_gtb _ _ HR), andb_false_r. reflexivity.
  - intros float_pow w p d r pd st Hst.
    destruct (hazard_locals_Ok_inv float_pow _ _ _ _ _ _ Hst) as [Hr HA].
    destruct (hazard_locals_ok float_pow w p d r pd Hr HA)
      as (st' & Hst' & Hnm & _ & HR & _ & HE & HEe & _ & HEf & _).
    assert (st' = st) by congruence. subst st'.
    destruct (Spectral.nearest_nm_in_grid w) as (k & Hk & Hin).
    assert (Hknm : k = nm st).
    { apply Spectral.nearest_nm_inv in Hk. congruence. }
    subst k.
    destruct (Spectral.lookup_grid _ Hin) as [Hlook _].
    exists 2.0%float.
    split; [exact Hk|].
    split; [unfold getitem; rewrite Hlook; reflexivity|].
    split; [exact HR|].
    split; [rewrite HR; apply substitution_on_table_value|].
    split; [rewrite HEe, HE; reflexivity | exact HEf].
  - intros float_pow w p d r pd Hr HA.
    destruct (hazard_locals_ok float_pow w p d r pd Hr HA) as (st & Hst & _).
    exists st. exact Hst.
  - intros float_pow w p r pd Hr HA.
    destruct (hazard_locals_ok float_pow w p 20.0 r pd Hr HA)
      as (st & Hst & _ & _ & HR & _ & HE & HEe & _).
    rewrite substitution_on_table_value in HR.
    change (10.0 <? 20.0)%float with true in HR.
    exists st. repeat split; congruence.
Qed.

(** C7 on concrete values: an ultrashort pulse with a weight below one, a
    long stare with the tabulated weight, a short exposure that keeps the
    tabulated weight, and the evaluator at 0.1 s, where [R] stays 2.0, and
    at 20 s, where it becomes 1.0. *)
Lemma substitution_rules_witness :
  apply_substitution_rules 1e-12 0.1 0.5 = 1.0%float
  /\ apply_substitution_rules 6e-12 20.0 2.0 = 1.0%float
  /\ apply_substitution_rules 1e-12 0.1 2.0 = 2.0%float
  /\ (exists st,
         hazard_locals pow_ref 430 5e-6 0.1 59e6 6e-12 = Ok st
         /\ R st = 2.0%float
         /\ E_pulse_eff st = (2.0 * (5e-6 / 59e6))%float
         /\ E_eff st = (2.0 * 5e-6 * 0.1)%float)
  /\ (exists st,
         hazard_locals pow_ref 430 5e-6 20.0 59e6 6e-12 = Ok st
         /\ R st = 1.0%float
         /\ E_pulse_eff st = (1.0 * (5e-6 / 59e6))%float).
Proof.
  destruct substitution_rules as (H1 & H2 & H3 & _ & H5 & H6 & H7).
  split; [apply H1; reflexivity|].
  split; [apply H2; reflexivity|].
  split; [apply H3; reflexivity|].
  split; [|apply H7; reflexivity].
  destruct (H6 pow_ref 430 5e-6 0.1 59e6 6e-12)%float as [st Hst];
    [reflexivity | reflexivity |].
  destruct (H5 _ _ _ _ _ _ _ Hst) as (R0 & _ & _ & _ & HR & HEe & HEf).
  change (10.0 <? 0.1)%float with false in HR.
  exists st. rewrite HR in HEe, HEf. repeat split; assumption.
Defined.

(** C8, as stated, fails: the function is not free of I/O and returns no
    structured value.  At 430 nm, 5 microwatt, 0.1 s it makes 27 calls of
    [print] and the caller receives [None]. *)
Lemma evaluator_prints_and_returns_None :
  snd (iso15004_smallspot pow_ref 430 5e-6 0.1 59e6 6e-12) = Ok PyNone
  /\ List.length (fst (iso15004_smallspot pow_ref 430 5e-6 0.1 59e6 6e-12))
     = 27%nat.
Proof. split; vm_compute; reflexivity. Qed.

(** C8, amended: the entry point computes the resolved wavelength, the
    weights after substitution, the single-pulse energy and margin, the
    optional thermal and photochemical quantities, the governing hazard and
    [t_safe_photo = photo_limit / E_photo] (infinite unless [E_photo > 0]),
    the last one whatever [dwell_time_s] is; it prints them as a report and
    returns [None].  The safe stopped-beam time is printed only when
    [dwell_time_s > 6.2e-4].  The call completes unless a quotient has a zero
    divisor. *)
Theorem evaluator_reports_and_returns_None
        (float_pow : float -> float -> float)
        (wavelength_nm power_pupil_W dwell_time_s rep_rate_Hz pulse_duration_s
         : float) :
  (forall out v,
      iso15004_smallspot float_pow wavelength_nm power_pupil_W dwell_time_s
                         rep_rate_Hz pulse_duration_s = (out, Ok v) ->
      v = PyNone
      /\ exists st,
          hazard_locals float_pow wavelength_nm power_pupil_W dwell_time_s
                        rep_rate_Hz pulse_duration_s = Ok st
          /\ report power_pupil_W dwell_time_s rep_rate_Hz pulse_duration_s st
             = (out, Ok tt)
          /\ E_photo st
             = (power_pupil_W * B st / aperture_cm2 float_pow)%float
          /\ t_safe_photo st
             = (if (0 <? E_photo st)%float
                then (photo_limit / E_photo st)%float else infinity)
          /\ In [Lit "Wavelength (nm):           "; FmtInt (nm st)] out
          /\ In [Lit "Weighted pulse (J):        ";
                 FmtFloat ".3e" (E_pulse_eff st)] out
          /\ In [Lit "Margin:                    ";
                 FmtFloat ".1f" (single_margin st); Lit " × below limit"] out
          /\ (exists pre, In [Lit pre; FmtStr (governing st)] out)
          /\ (In [Lit "Safe stopped-beam time(s): ";
                  FmtFloat ".3e" (t_safe_photo st)] out
              <-> (6.2e-4 <? dwell_time_s)%float = true))
  /\ ((rep_rate_Hz =? 0)%float = false ->
      (aperture_cm2 float_pow =? 0)%float = false ->
      exists out,
        iso15004_smallspot float_pow wavelength_nm power_pupil_W dwell_time_s
                           rep_rate_Hz pulse_duration_s = (out, Ok PyNone)
        /\ out <> []).
Proof.
  split.
  - intros out v H. rewrite iso15004_smallspot_unfold in H.
    destruct (hazard_locals float_pow wavelength_nm power_pupil_W dwell_time_s
                            rep_rate_Hz pulse_duration_s) as [st|e] eqn:Hst;
      [|discriminate].
    destruct (hazard_locals_Ok_inv _ _ _ _ _ _ _ Hst) as [Hr HA].
    destruct (hazard_locals_ok float_pow wavelength_nm power_pupil_W
                dwell_time_s rep_rate_Hz pulse_duration_s Hr HA)
      as (st' & Hst' & _ & _ & _ & HAst & _ & _ & _ & _ & Htl & Htm & HE & HH
          & Hpm & _ & Hts).
    rewrite Hst in Hst'. injection Hst' as <-. rewrite HAst in HE.
    destruct (report power_pupil_W dwell_time_s rep_rate_Hz pulse_duration_s st)
      as [out' [[]|e]] eqn:Hrep; [|discriminate].
    injection H as <- <-.
    split; [reflexivity|]. exists st.
    split; [reflexivity|]. split; [exact Hrep|].
    split; [exact HE|]. split; [exact Hts|].
    revert Hrep. unfold report, PyFloat.gtb. revert Htl Htm HH Hpm.
    destruct (6.2e-4 <? dwell_time_s)%float; intros Htl Htm HH Hpm;
      rewrite ?Htl, ?Htm, ?HH, ?Hpm; cbn; intros [= <-];
      (split; [simpl; auto 40|]); (split; [simpl; auto 40|]);
      (split; [simpl; auto 40|]).
    + split; [eexists; simpl; eauto 40|].
      split; [reflexivity | intros _; simpl; auto 40].
    + split; [eexists; simpl; eauto 40|].
      split; [|discriminate].
      simpl. intros Hin.
      repeat (destruct Hin as [Hin | Hin]; [discriminate|]). destruct Hin.
  - intros Hr HA.
    destruct (hazard_locals_ok float_pow wavelength_nm power_pupil_W
                dwell_time_s rep_rate_Hz pulse_duration_s Hr HA)
      as (st & Hst & _).
    destruct (report_total _ _ _ _ _ _ _ Hst) as (out & Hout & Hne).
    exists out. rewrite iso15004_smallspot_unfold, Hst, Hout. auto.
Qed.

(** The amended C8 with the default pulse train at 430 nm, 5 microwatt and
    0.1 s. *)
Lemma evaluator_reports_and_returns_None_witness :
  exists out,
    iso15004_smallspot pow_ref 430 5e-6 0.1 59e6 6e-12 = (out, Ok PyNone)
    /\ out <> [].
Proof.
  exact (proj2 (evaluator_reports_and_returns_None
                  pow_ref 430 5e-6 0.1 59e6 6e-12) eq_refl eq_refl).
Defined.

(** C9: the computed quantities do not depend on [pulse_duration_s]: every
    tabulated [R] is 2.0, so the ultrashort-pulse rule, the only reader of
    [pulse_duration_s], never applies, and two runs that differ only in it
    leave the same local variables (or raise the same exception). *)
Theorem pulse_duration_is_irrelevant :
  (forall k v, lookup R_TABLE k = Some v -> v = 2.0%float)
  /\ (forall pd pd' d,
        apply_substitution_rules pd d 2.0 = apply_substitution_rules pd' d 2.0)
  /\ (forall float_pow w p d r pd pd',
        hazard_locals float_pow w p d r pd
        = hazard_locals float_pow w p d r pd').
Proof.
  repeat split.
  - intros k v. unfold R_TABLE, item; cbn [lookup].
    repeat (destruct (_ =? k)%Z; [congruence|]). discriminate.
  - intros pd pd' d. now rewrite !substitution_on_table_value.
  - intros float_pow w p d r pd pd'. unfold hazard_locals.
    rewrite Spectral.nearest_nm_unfold. cbn [bind].
    destruct (Spectral.nearest_nm_in_grid w) as (k & Hk & Hin).
    apply Spectral.nearest_nm_inv in Hk. rewrite <- Hk.
    destruct (Spectral.lookup_grid k Hin) as [HR [b HB]].
    unfold getitem. rewrite HR, HB. cbn [of_option bind].
    rewrite !substitution_on_table_value. reflexivity.
Qed.

(** C10: [R_TABLE] and [B_TABLE] have the same keys, [nearest_nm] always
    returns one of them, so both subscriptions [R_TABLE[nm]] and [B_TABLE[nm]]
    of the evaluator succeed and the evaluator never raises [KeyError]. *)
Theorem table_lookups_never_fail :
  keys R_TABLE = keys B_TABLE
  /\ (forall wavelength_nm : float,
        exists nm r b,
          nearest_nm wavelength_nm = Ok nm
          /\ In nm (keys R_TABLE)
          /\ getitem R_TABLE nm = Ok r
          /\ getitem B_TABLE nm = Ok b)
  /\ (forall float_pow w p d r pd,
        hazard_locals float_pow w p d r pd <> Raise KeyError).
Proof.
  split; [reflexivity|split].
  - intros w. destruct (Spectral.nearest_nm_in_grid w) as (k & Hk & Hin).
    destruct (Spectral.lookup_grid k Hin) as [HR [b HB]].
    exists k, 2.0%float, b. unfold getitem. rewrite HR, HB.
    repeat split; auto.
  - intros float_pow w p d r pd H.
    apply hazard_locals_raise in H. discriminate.
Qed.

(** * Further properties of the code *)

(** X1: with a non-zero repetition rate the call raises nothing, prints its
    report and returns [None]; and with [power_pupil_W = 0] every margin that
    is computed is infinite: the single-pulse margin and the safe stopped-beam
    time always, the thermal and photochemical margins when
    [dwell_time_s > 6.2e-4]. *)
Theorem no_exception_for_nonzero_rep_rate
        (float_pow : float -> float -> float)
        (wavelength_nm power_pupil_W dwell_time_s rep_rate_Hz pulse_duration_s
         : float) :
  (rep_rate_Hz =? 0)%float = false ->
  (aperture_cm2 float_pow =? 0)%float = false ->
  exists st out,
    hazard_locals float_pow wavelength_nm power_pupil_W dwell_time_s
                  rep_rate_Hz pulse_duration_s = Ok st
    /\ iso15004_smallspot float_pow wavelength_nm power_pupil_W dwell_time_s
                          rep_rate_Hz pulse_duration_s = (out, Ok PyNone)
    /\ ((power_pupil_W =? 0)%float = true ->
        single_margin st = infinity
        /\ t_safe_photo st = infinity
        /\ ((6.2e-4 <? dwell_time_s)%float = true ->
            thermal_margin st = Some infinity
            /\ photo_margin st = Some infinity)).
Proof.
  intros Hr HA.
  destruct (hazard_locals_ok float_pow wavelength_nm power_pupil_W
              dwell_time_s rep_rate_Hz pulse_duration_s Hr HA)
    as (st & Hst & _ & _ & _ & _ & HEp & HEpe & Hsm & HEe & _ & Htm & HE & _
        & Hpm & _ & Hts).
  destruct (report_total _ _ _ _ _ _ _ Hst) as (out & Hout & _).
  exists st, out. split; [exact Hst|]. split.
  { rewrite iso15004_smallspot_unfold, Hst, Hout. reflexivity. }
  intros Hp. apply FloatOrder.eqb_zero in Hp.
  assert (Z1 : FloatOrder.zero_or_nan (E_pulse_eff st)).
  { rewrite HEpe, HEp.
    apply FloatOrder.zero_or_nan_mul_r, FloatOrder.zero_or_nan_div, Hp. }
  assert (Z2 : FloatOrder.zero_or_nan (E_eff st)).
  { rewrite HEe.
    apply FloatOrder.zero_or_nan_mul_l, FloatOrder.zero_or_nan_mul_r, Hp. }
  assert (Z3 : FloatOrder.zero_or_nan (E_photo st)).
  { rewrite HE.
    apply FloatOrder.zero_or_nan_div, FloatOrder.zero_or_nan_mul_l, Hp. }
  assert (Z4 : FloatOrder.zero_or_nan (E_photo st * dwell_time_s)%float)
    by apply FloatOrder.zero_or_nan_mul_l, Z3.
  rewrite (FloatOrder.zero_or_nan_not_pos _ Z1) in Hsm.
  rewrite (FloatOrder.zero_or_nan_not_pos _ Z3) in Hts.
  rewrite (FloatOrder.zero_or_nan_not_pos _ Z2) in Htm.
  rewrite (FloatOrder.zero_or_nan_not_pos _ Z4) in Hpm.
  split; [exact Hsm|]. split; [exact Hts|].
  intros Hd. rewrite Hd in Htm, Hpm. split; assumption.
Qed.

(** X1 with zero power at 430 nm for 0.1 s. *)
Lemma no_exception_for_nonzero_rep_rate_witness :
  exists st out,
    hazard_locals pow_ref 430 0 0.1 59e6 6e-12 = Ok st
    /\ iso15004_smallspot pow_ref 430 0 0.1 59e6 6e-12 = (out, Ok PyNone)
    /\ single_margin st = infinity /\ t_safe_photo st = infinity
    /\ thermal_margin st = Some infinity /\ photo_margin st = Some infinity.
Proof.
  destruct (no_exception_for_nonzero_rep_rate
              pow_ref 430 0 0.1 59e6 6e-12 eq_refl eq_refl)
    as (st & out & Hst & Hout & H).
  destruct (H eq_refl) as (H1 & H2 & H3).
  destruct (H3 eq_refl) as [H4 H5].
  exists st, out. repeat split; assumption.
Defined.

(** X2: the governing hazard when [dwell_time_s > 6.2e-4]: both margins are
    present, and the hazard is chosen by their truth values: with both
    non-zero it is "Photochemical" when [photo_margin < thermal_margin] and
    "Thermal" otherwise; a margin equal to zero is passed over.  When
    [dwell_time_s] is a NaN neither comparison holds, both margins are [None]
    and the hazard is "Indeterminate". *)
Theorem governing_hazard_cases
        (float_pow : float -> float -> float)
        (wavelength_nm power_pupil_W dwell_time_s rep_rate_Hz pulse_duration_s
         : float) :
  (rep_rate_Hz =? 0)%float = false ->
  (aperture_cm2 float_pow =? 0)%float = false ->
  exists st,
    hazard_locals float_pow wavelength_nm power_pupil_W dwell_time_s
                  rep_rate_Hz pulse_duration_s = Ok st
    /\ ((6.2e-4 <? dwell_time_s)%float = true ->
        exists tm pm,
          thermal_margin st = Some tm /\ photo_margin st = Some pm
          /\ governing st
             = (if negb (tm =? 0)%float && negb (pm =? 0)%float
                then if (pm <? tm)%float then "Photochemical" else "Thermal"
                else if negb (tm =? 0)%float then "Thermal"
                else if negb (pm =? 0)%float then "Photochemical"
                else "Indeterminate")%string)
    /\ ((dwell_time_s <=? 6.2e-4)%float = false ->
        (6.2e-4 <? dwell_time_s)%float = false ->
        thermal_margin st = None /\ photo_margin st = None
        /\ governing st = "Indeterminate"%string).
Proof.
  intros Hr HA.
  destruct (hazard_locals_ok float_pow wavelength_nm power_pupil_W
              dwell_time_s rep_rate_Hz pulse_duration_s Hr HA)
    as (st & Hst & _ & _ & _ & _ & _ & _ & _ & _ & _ & Htm & _ & _
        & Hpm & Hg & _).
  exists st. split; [exact Hst|]. split.
  - intros Hd. rewrite Hd in Htm, Hpm.
    do 2 eexists. split; [exact Htm|]. split; [exact Hpm|].
    rewrite Htm, Hpm in Hg. unfold determine_governing in Hg.
    rewrite (FloatOrder.ltb_not_leb _ _ Hd) in Hg.
    cbn [PyFloat.truthy PyFloat.lt_opt bind] in Hg.
    match type of Hg with
    | context [negb (?a =? 0)%float && negb (?b =? 0)%float] =>
        destruct (negb (a =? 0)%float); destruct (negb (b =? 0)%float);
        cbn [andb] in Hg |- *
    end; congruence.
  - intros Hle Hgt. rewrite Hgt in Htm, Hpm.
    rewrite Htm, Hpm in Hg. unfold determine_governing in Hg.
    rewrite Hle in Hg. cbn in Hg. repeat split; congruence.
Qed.

(** X2 at 430 nm, 5 microwatt, 0.1 s, and for a NaN exposure time. *)
Lemma governing_hazard_cases_witness :
  (exists st,
      hazard_locals pow_ref 430 5e-6 0.1 59e6 6e-12 = Ok st
      /\ governing st = "Photochemical"%string)
  /\ (exists st,
        hazard_locals pow_ref 430 5e-6 nan 59e6 6e-12 = Ok st
        /\ governing st = "Indeterminate"%string).
Proof.
  split.
  - destruct (governing_hazard_cases pow_ref 430 5e-6 0.1 59e6 6e-12
                                     eq_refl eq_refl) as (st & Hst & H & _).
    destruct (H eq_refl) as (tm & pm & Htm & Hpm & Hg).
    exists st. split; [exact Hst|].
    rewrite Hg. clear Hg H.
    vm_compute in Hst. injection Hst as <-.
    vm_compute in Htm, Hpm. injection Htm as <-. injection Hpm as <-.
    reflexivity.
  - destruct (governing_hazard_cases pow_ref 430 5e-6 nan 59e6 6e-12
                                     eq_refl eq_refl) as (st & Hst & _ & H).
    exists st. split; [exact Hst|]. apply H; reflexivity.
Defined.

(** X3: [parse_value] raises nothing but [ValueError] (the subscription of the
    scale dict cannot fail), and it does raise when the stripped, lower-cased
    string does not start with a digit or a dot. *)
Theorem parse_value_raises_only_ValueError :
  (forall s e, parse_value s = Raise e -> exists msg, e = ValueError msg)
  /\ (forall s,
        match normalised s with
        | [] => True
        | c :: _ => in_num_class c = false
        end ->
        exists msg, parse_value s = Raise (ValueError msg)).
Proof.
  split.
  - intros s e. unfold parse_value, re_match.
    destruct (Str.span in_num_class (normalised s)) as [num rest].
    destruct num as [|d num']; [intros [= <-]; eauto|].
    assert (Hf : forall prefix,
               scale_lookup scale_table (string_of_list_ascii prefix) <> None ->
               bind (float_of_str (d :: num'))
                    (fun num =>
                       bind (of_option KeyError
                               (scale_lookup scale_table
                                             (string_of_list_ascii prefix)))
                            (fun scale => Ok (num * scale)%float))
               = Raise e -> exists msg, e = ValueError msg).
    { intros prefix Hp. unfold float_of_str.
      destruct (scale_lookup scale_table (string_of_list_ascii prefix));
        [|congruence].
      repeat match goal with
             | |- context [match ?x with _ => _ end] => destruct x
             end; cbn; intros [= <-] || discriminate; eauto. }
    destruct (Str.lstrip rest) as [|c rest'].
    + apply Hf. discriminate.
    + destruct (in_prefix_class c) eqn:Hc; [|apply Hf; discriminate].
      apply Hf. revert Hc.
      destruct c as [[] [] [] [] [] [] [] []]; vm_compute; discriminate.
  - intros s H. unfold parse_value, re_match.
    destruct (normalised s) as [|c v]; [simpl; eauto|].
    simpl. rewrite H. eauto.
Qed.

(** X3 on ["abc"], which starts with a letter. *)
Lemma parse_value_raises_only_ValueError_witness :
  exists msg, parse_value "abc" = Raise (ValueError msg).
Proof.
  exact (proj2 parse_value_raises_only_ValueError "abc"%string eq_refl).
Defined.

(** * Signs of products and quotients *)

Module FloatSign.

Lemma binary_round_aux_signed (s : bool) (m e : Z) (l : location) :
  (0 <= m)%Z -> signed s (binary_round_aux prec emax s m e l).
Proof.
  intros Hm. unfold binary_round_aux.
  pose proof (NoNaN.shr_fexp_nonneg m e l Hm) as H1.
  destruct (shr_fexp prec emax m e l) as [mrs' e']; simpl in H1.
  pose proof (NoNaN.shr_fexp_nonneg _ e' loc_Exact
                (NoNaN.round_nearest_even_nonneg _ (loc_of_shr_record mrs') H1)) as H2.
  destruct (shr_fexp prec emax _ e' loc_Exact) as [mrs'' e'']; simpl in H2.
  unfold signed.
  destruct (shr_m mrs'') as [|q|q]; try reflexivity; try lia.
  destruct (e'' <=? emax - prec)%Z; reflexivity.
Qed.

Lemma binary_round_signed (s : bool) (m : positive) (e : Z) :
  signed s (binary_round prec emax s m e).
Proof.
  unfold binary_round. destruct (shl_align m e _) as [mz ez].
  apply binary_round_aux_signed; lia.
Qed.

Lemma binary_normalize_nonneg (m e : Z) :
  (0 <= m)%Z -> signed false (binary_normalize prec emax m e false).
Proof.
  intros Hm. destruct m as [|q|q]; simpl; try reflexivity; try lia.
  apply binary_round_signed.
Qed.

Lemma div_core_nonneg (m1 : positive) (e1 : Z) (m2 : positive) (e2 : Z) :
  (0 <= fst (fst (SFdiv_core_binary prec emax (Zpos m1) e1 (Zpos m2) e2)))%Z.
Proof.
  unfold SFdiv_core_binary.
  set (s := (e1 - e2 - _)%Z).
  set (m' := match s with Zpos _ => Z.shiftl (Zpos m1) s | Z0 => Zpos m1
                     | Zneg _ => 0%Z end).
  assert (Hm' : (0 <= m')%Z).
  { subst m'. destruct s; try lia. apply Z.shiftl_nonneg. lia. }
  pose proof (Z_div_mod m' (Zpos m2) eq_refl) as H.
  destruct (Z.div_eucl m' (Zpos m2)) as [q r]. simpl. nia.
Qed.

(** A number times a finite number, and a finite number over a number, are
    numbers: no NaN arises. *)
Lemma SFmul_finite_signed (s1 s2 : bool) (x : spec_float)
      (m : positive) (e : Z) :
  signed s1 x -> signed (xorb s1 s2) (SF64mul x (S754_finite s2 m e)).
Proof.
  unfold SF64mul, SFmul.
  destruct x as [sx|sx| |sx mx ex]; simpl; intros H; subst; auto;
    try contradiction.
  apply binary_round_aux_signed. lia.
Qed.

Lemma SFdiv_finite_signed (s1 s2 : bool) (m : positive) (e : Z)
      (y : spec_float) :
  signed s2 y -> signed (xorb s1 s2) (SF64div (S754_finite s1 m e) y).
Proof.
  unfold SF64div, SFdiv.
  destruct y as [sy|sy| |sy my ey]; simpl; intros H; subst; auto;
    try contradiction.
  pose proof (div_core_nonneg m e my ey) as H.
  destruct (SFdiv_core_binary prec emax (Zpos m) e (Zpos my) ey)
    as [[mz ez] lz]. simpl in H.
  apply binary_round_aux_signed, H.
Qed.

Local Open Scope float_scope.

Lemma pos_signed (x : float) : (0 <? x) = true -> signed false (Prim2SF x).
Proof.
  rewrite ltb_spec. unfold SFltb.
  change (Prim2SF 0) with (S754_zero false).
  destruct (Prim2SF x) as [s|[]| |[] m e]; simpl; try discriminate;
    reflexivity.
Qed.

Lemma signed_nonneg (x : float) :
  signed false (Prim2SF x) -> (0 <=? x) = true.
Proof.
  rewrite leb_spec. unfold SFleb.
  change (Prim2SF 0) with (S754_zero false).
  destruct (Prim2SF x) as [s|s| |s m e]; simpl; intros H; subst;
    try reflexivity; contradiction.
Qed.

(** *** Numbers that are not positive

    They stay so when multiplied or divided by a number that is not
    negative, and never compare greater than zero. *)

Lemma signed_true_not_positive (x : spec_float) :
  signed true x -> not_positive x.
Proof. destruct x; simpl; auto. Qed.

Lemma not_positive_mul_l (x y : spec_float) :
  not_positive x -> signed false y -> not_positive (SF64mul x y).
Proof.
  unfold SF64mul, SFmul.
  destruct x as [sx|sx| |sx mx ex], y as [sy|sy| |sy my ey];
    simpl; intros Hx Hy; subst; auto; try contradiction.
  apply signed_true_not_positive.
  apply (binary_round_aux_signed true). lia.
Qed.

Lemma not_positive_mul_r (x y : spec_float) :
  signed false x -> not_positive y -> not_positive (SF64mul x y).
Proof.
  unfold SF64mul, SFmul.
  destruct x as [sx|sx| |sx mx ex], y as [sy|sy| |sy my ey];
    simpl; intros Hx Hy; subst; auto; try contradiction.
  apply signed_true_not_positive.
  apply (binary_round_aux_signed true). lia.
Qed.

Lemma not_positive_div (x y : spec_float) :
  not_positive x -> signed false y -> not_positive (SF64div x y).
Proof.
  unfold SF64div, SFdiv.
  destruct x as [sx|sx| |sx mx ex], y as [sy|sy| |sy my ey];
    simpl; intros Hx Hy; subst; auto; try contradiction.
  apply signed_true_not_positive.
  pose proof (div_core_nonneg mx ex my ey) as H.
  destruct (SFdiv_core_binary prec emax (Zpos mx) ex (Zpos my) ey)
    as [[mz ez] lz]. simpl in H.
  apply (binary_round_aux_signed true), H.
Qed.

Lemma not_gtb_zero (x : float) :
  (0 <? x) = false <-> not_positive (Prim2SF x).
Proof.
  rewrite ltb_spec. unfold SFltb.
  change (Prim2SF 0) with (S754_zero false).
  destruct (Prim2SF x) as [s|[]| |[] m e]; simpl; intuition congruence.
Qed.

End FloatSign.

(** * More on the evaluator *)

Section EvaluatorSigns.

Variable float_pow : float -> float -> float.

Local Open Scope float_scope.

(** The substituted weight is the number 1.0 or 2.0. *)
Lemma substituted_R_signed (pd d : float) :
  signed false (Prim2SF (apply_substitution_rules pd d 2.0)).
Proof.
  rewrite substitution_on_table_value.
  destruct (10.0 <? d); vm_compute; reflexivity.
Qed.

(** Every tabulated [B] is a positive number. *)
Lemma B_TABLE_signed (k : Z) (b : float) :
  lookup B_TABLE k = Some b -> signed false (Prim2SF b).
Proof.
  unfold B_TABLE, item; cbn [lookup].
  repeat (destruct (_ =? k)%Z; [intros [= <-]; vm_compute; reflexivity|]).
  discriminate.
Qed.

(** The guarded quotient of a positive limit is a number that is not
    negative. *)
Lemma guarded_margin_nonneg (limit e : float) :
  (exists m ex, Prim2SF limit = S754_finite false m ex) ->
  (0 <=? (if 0 <? e then limit / e else infinity)) = true.
Proof.
  intros (m & ex & Hl).
  destruct (0 <? e) eqn:He; [|reflexivity].
  apply FloatSign.signed_nonneg. rewrite div_spec, Hl.
  apply (FloatSign.SFdiv_finite_signed false false).
  apply FloatSign.pos_signed, He.
Qed.

(** With a divisor that is a NaN, a zero or negative, the guarded quotient
    is infinite. *)
Lemma guarded_margin_infinite (limit e : float) :
  not_positive (Prim2SF e) ->
  (if 0 <? e then limit / e else infinity) = infinity.
Proof. intros H. now rewrite (proj2 (FloatSign.not_gtb_zero e) H). Qed.

End EvaluatorSigns.

(** X4: whatever the input, the single-pulse margin, the photochemical
    margin and the safe stopped-beam time that the evaluator computes are
    numbers (never NaN) and never negative. *)
Theorem margins_are_never_negative
        (float_pow : float -> float -> float)
        (wavelength_nm power_pupil_W dwell_time_s rep_rate_Hz pulse_duration_s
         : float) (st : Locals) :
  hazard_locals float_pow wavelength_nm power_pupil_W dwell_time_s
                rep_rate_Hz pulse_duration_s = Ok st ->
  (0 <=? single_margin st)%float = true
  /\ (0 <=? t_safe_photo st)%float = true
  /\ (forall pm, photo_margin st = Some pm -> (0 <=? pm)%float = true).
Proof.
  intros Hst.
  destruct (hazard_locals_Ok_inv _ _ _ _ _ _ _ Hst) as [Hr HA].
  destruct (hazard_locals_ok float_pow wavelength_nm power_pupil_W
              dwell_time_s rep_rate_Hz pulse_duration_s Hr HA)
    as (st' & Hst' & _ & _ & _ & _ & _ & _ & Hsm & _ & _ & _ & _ & _
        & Hpm & _ & Hts).
  rewrite Hst in Hst'. injection Hst' as <-.
  assert (H1 : exists m ex, Prim2SF single_limit = S754_finite false m ex)
    by (vm_compute; eauto).
  assert (H2 : exists m ex, Prim2SF photo_limit = S754_finite false m ex)
    by (vm_compute; eauto).
  split; [rewrite Hsm; apply guarded_margin_nonneg, H1|].
  split; [rewrite Hts; apply guarded_margin_nonneg, H2|].
  intros pm Hp. rewrite Hp in Hpm.
  destruct (6.2e-4 <? dwell_time_s)%float; [|discriminate].
  injection Hpm as ->. apply guarded_margin_nonneg, H2.
Qed.

(** X4 at 430 nm, 5 microwatt, 0.1 s. *)
Lemma margins_are_never_negative_witness :
  exists st,
    hazard_locals pow_ref 430 5e-6 0.1 59e6 6e-12 = Ok st
    /\ (0 <=? single_margin st)%float = true
    /\ (0 <=? t_safe_photo st)%float = true.
Proof.
  destruct (hazard_locals pow_ref 430 5e-6 0.1 59e6 6e-12) as [st|e] eqn:H;
    [|vm_compute in H; discriminate].
  exists st. split; [reflexivity|].
  destruct (margins_are_never_negative _ _ _ _ _ _ st H) as (H1 & H2 & _).
  split; assumption.
Defined.

(** X5: a power that is not positive (zero, negative or NaN) is not
    rejected.  With a positive repetition rate every margin the evaluator
    computes is infinite: the single-pulse margin and the safe stopped-beam
    time always, the thermal and photochemical margins when
    [dwell_time_s > 6.2e-4]. *)
Theorem non_positive_power_gives_infinite_margins
        (float_pow : float -> float -> float)
        (wavelength_nm power_pupil_W dwell_time_s rep_rate_Hz pulse_duration_s
         : float) :
  (0 <? power_pupil_W)%float = false ->
  (0 <? rep_rate_Hz)%float = true ->
  (0 <? aperture_cm2 float_pow)%float = true ->
  exists st,
    hazard_locals float_pow wavelength_nm power_pupil_W dwell_time_s
                  rep_rate_Hz pulse_duration_s = Ok st
    /\ single_margin st = infinity
    /\ t_safe_photo st = infinity
    /\ ((6.2e-4 <? dwell_time_s)%float = true ->
        thermal_margin st = Some infinity
        /\ photo_margin st = Some infinity).
Proof.
  intros Hp Hr HA.
  destruct (hazard_locals_ok float_pow wavelength_nm power_pupil_W
              dwell_time_s rep_rate_Hz pulse_duration_s
              (FloatOrder.ltb_neq _ _ Hr) (FloatOrder.ltb_neq _ _ HA))
    as (st & Hst & _ & HB & HR & HAst & HEp & HEpe & Hsm & HEe & _ & Htm
        & HE & _ & Hpm & _ & Hts).
  exists st. split; [exact Hst|].
  apply FloatSign.not_gtb_zero in Hp.
  pose proof (FloatSign.pos_signed _ Hr) as Sr.
  pose proof (FloatSign.pos_signed _ HA) as SA.
  pose proof (substituted_R_signed pulse_duration_s dwell_time_s) as SR.
  rewrite <- HR in SR.
  pose proof (B_TABLE_signed _ _ HB) as SB.
  assert (N1 : not_positive (Prim2SF (E_pulse_eff st))).
  { rewrite HEpe, HEp, mul_spec, div_spec.
    apply FloatSign.not_positive_mul_r; [exact SR|].
    apply FloatSign.not_positive_div; assumption. }
  assert (N2 : not_positive (Prim2SF (R st * power_pupil_W))).
  { rewrite mul_spec. apply FloatSign.not_positive_mul_r; assumption. }
  assert (N3 : not_positive (Prim2SF (E_photo st))).
  { rewrite HE, HAst, div_spec, mul_spec.
    apply FloatSign.not_positive_div; [|exact SA].
    apply FloatSign.not_positive_mul_l; assumption. }
  rewrite (guarded_margin_infinite _ _ N1) in Hsm.
  rewrite (guarded_margin_infinite _ _ N3) in Hts.
  split; [exact Hsm|]. split; [exact Hts|].
  intros Hd. rewrite Hd in Htm, Hpm.
  assert (Sd : signed false (Prim2SF dwell_time_s)).
  { apply FloatSign.pos_signed.
    exact (FloatOrder.ltb_trans 0 6.2e-4 _ eq_refl Hd). }
  assert (N4 : not_positive (Prim2SF (E_eff st))).
  { rewrite HEe, mul_spec.
    apply FloatSign.not_positive_mul_l; assumption. }
  assert (N5 : not_positive (Prim2SF (E_photo st * dwell_time_s))).
  { rewrite mul_spec. apply FloatSign.not_positive_mul_l; assumption. }
  rewrite (guarded_margin_infinite _ _ N4) in Htm.
  rewrite (guarded_margin_infinite _ _ N5) in Hpm.
  split; assumption.
Qed.

(** X5 at 430 nm with a power of minus one watt for 0.1 s. *)
Lemma non_positive_power_gives_infinite_margins_witness :
  exists st,
    hazard_locals pow_ref 430 (-1) 0.1 59e6 6e-12 = Ok st
    /\ single_margin st = infinity
    /\ t_safe_photo st = infinity
    /\ thermal_margin st = Some infinity
    /\ photo_margin st = Some infinity.
Proof.
  destruct (non_positive_power_gives_infinite_margins
              pow_ref 430 (-1) 0.1 59e6 6e-12 eq_refl eq_refl eq_refl)
    as (st & Hst & H1 & H2 & H3).
  destruct (H3 eq_refl) as [H4 H5].
  exists st. repeat split; assumption.
Defined.

(** X6: the wavelength only enters through [B].  Two runs that differ in
    the wavelength (and the pulse duration) have the same weight [R], which
    is 1.0 when [dwell_time_s > 10.0] and 2.0 otherwise, and the same
    single-pulse and thermal quantities. *)
Theorem wavelength_only_affects_photochemical
        (float_pow : float -> float -> float)
        (w w' power_pupil_W dwell_time_s rep_rate_Hz pd pd' : float) :
  (rep_rate_Hz =? 0)%float = false ->
  (aperture_cm2 float_pow =? 0)%float = false ->
  exists st st',
    hazard_locals float_pow w power_pupil_W dwell_time_s rep_rate_Hz pd
    = Ok st
    /\ hazard_locals float_pow w' power_pupil_W dwell_time_s rep_rate_Hz pd'
       = Ok st'
    /\ R st = (if (10.0 <? dwell_time_s)%float then 1.0 else 2.0)%float
    /\ R st' = R st
    /\ E_pulse st' = E_pulse st
    /\ E_pulse_eff st' = E_pulse_eff st
    /\ single_margin st' = single_margin st
    /\ E_eff st' = E_eff st
    /\ thermal_limit st' = thermal_limit st
    /\ thermal_margin st' = thermal_margin st.
Proof.
  intros Hr HA.
  destruct (hazard_locals_ok float_pow w power_pupil_W dwell_time_s
              rep_rate_Hz pd Hr HA)
    as (st & Hst & _ & _ & HR & _ & HEp & HEpe & Hsm & HEe & Htl & Htm & _).
  destruct (hazard_locals_ok float_pow w' power_pupil_W dwell_time_s
              rep_rate_Hz pd' Hr HA)
    as (st' & Hst' & _ & _ & HR' & _ & HEp' & HEpe' & Hsm' & HEe' & Htl'
        & Htm' & _).
  rewrite substitution_on_table_value in HR, HR'.
  assert (ER : R st' = R st) by congruence.
  assert (E1 : E_pulse st' = E_pulse st) by congruence.
  assert (E2 : E_pulse_eff st' = E_pulse_eff st) by congruence.
  assert (E3 : E_eff st' = E_eff st) by congruence.
  rewrite E2 in Hsm'. rewrite E3 in Htm'.
  exists st, st'. repeat split; try assumption; congruence.
Qed.

(** X6 at 400 nm and 500 nm. *)
Lemma wavelength_only_affects_photochemical_witness :
  exists st st',
    hazard_locals pow_ref 400 5e-6 0.1 59e6 6e-12 = Ok st
    /\ hazard_locals pow_ref 500 5e-6 0.1 59e6 1e-12 = Ok st'
    /\ thermal_margin st' = thermal_margin st
    /\ single_margin st' = single_margin st.
Proof.
  destruct (wavelength_only_affects_photochemical
              pow_ref 400 500 5e-6 0.1 59e6 6e-12 1e-12 eq_refl eq_refl)
    as (st & st' & H1 & H2 & _ & _ & _ & _ & H7 & _ & _ & H10).
  exists st, st'. repeat split; assumption.
Defined.

(** * More on [nearest_nm] *)

Module NearestFacts.

Local Open Scope float_scope.

Lemma SFcompare_refl (x : spec_float) :
  x <> S754_nan -> SFcompare x x = Some Eq.
Proof.
  destruct x as [s|s| |s m e]; simpl; try congruence; intros _.
  - destruct s; reflexivity.
  - rewrite Z.compare_refl, Pos.compare_cont_refl. destruct s; reflexivity.
Qed.

Lemma is_nan_true (x : float) : is_nan x = true -> x = nan.
Proof.
  unfold is_nan. rewrite eqb_spec. unfold SFeqb. intros H.
  assert (Hx : Prim2SF x = S754_nan).
  { destruct (Prim2SF x) as [s|s| |s m e] eqn:E; try reflexivity;
      rewrite SFcompare_refl in H by discriminate; discriminate. }
  rewrite <- (SF2Prim_Prim2SF x), Hx. reflexivity.
Qed.

Lemma is_infinity_true (x : float) :
  is_infinity x = true -> x = infinity \/ x = neg_infinity.
Proof.
  unfold is_infinity. rewrite eqb_spec, abs_spec. unfold SFeqb.
  change (Prim2SF infinity) with (S754_infinity false).
  intros H. rewrite <- (SF2Prim_Prim2SF x).
  destruct (Prim2SF x) as [s|s| |s m e]; simpl in H; try discriminate.
  destruct s; [right|left]; reflexivity.
Qed.

End NearestFacts.

(** X7: [nearest_nm] with an explicit [table_keys] of ints.  On no keys it
    raises [ValueError] (from [min]).  When every key fits a float it returns
    one of the keys, no key is strictly nearer, and no key before it in the
    list is at the same distance.  When some key is too large for a float it
    raises [OverflowError], whatever the other keys are. *)
Theorem nearest_nm_in_any_table (nm : float) :
  (exists msg, nearest_nm_in nm [] = Raise (ValueError msg))
  /\ (forall table_keys,
        table_keys <> [] ->
        forallb PyFloat.fits table_keys = true ->
        exists k pre post,
          nearest_nm_in nm table_keys = Ok k
          /\ table_keys = pre ++ k :: post
          /\ (forall k', In k' table_keys ->
                (dist nm k' <? dist nm k)%float = false)
          /\ (forall k', In k' pre ->
                (dist nm k' =? dist nm k)%float = false))
  /\ (forall table_keys,
        forallb PyFloat.fits table_keys = false ->
        nearest_nm_in nm table_keys = Raise OverflowError).
Proof.
  split; [eexists; reflexivity|]. split.
  - intros [|x l] Hne Hfit; [congruence|].
    assert (Hkey : forall y, In y (x :: l) ->
                             nearest_nm_key nm y = Ok (dist nm y)).
    { intros y Hy. apply Spectral.nearest_nm_key_fits.
      rewrite forallb_forall in Hfit. exact (Hfit y Hy). }
    unfold nearest_nm_in.
    rewrite (py_min_pure (nearest_nm_key nm) (dist nm) x l Hkey).
    assert (Hleast : forall k', In k' (x :: l) ->
                       (dist nm k' <? dist nm (min_from (dist nm) x (dist nm x) l))%float
                       = false).
    { intros k' Hk'. apply min_from_least.
      destruct Hk' as [<- | Hk']; [left|right]; auto. }
    destruct (min_from_first (dist nm) l x)
      as [[Hr _] | [Hlt (pre & post & Hl & Hpre)]]; cbv zeta in *.
    + exists (min_from (dist nm) x (dist nm x) l), [], l.
      split; [reflexivity|]. split; [simpl; congruence|].
      split; [exact Hleast|]. intros k' [].
    + exists (min_from (dist nm) x (dist nm x) l), (x :: pre), post.
      split; [reflexivity|]. split; [simpl; congruence|].
      split; [exact Hleast|].
      intros k' [<- | Hk']; [|auto].
      apply FloatOrder.ltb_neq, Hlt.
  - intros table_keys Hfit.
    assert (Hex : exists k, In k table_keys /\ PyFloat.fits k = false).
    { induction table_keys as [|y l IH]; [discriminate|].
      cbn [forallb] in Hfit. destruct (PyFloat.fits y) eqn:Hy.
      - destruct (IH Hfit) as (k & Hk & Hkf). exists k. split; [right|]; auto.
      - exists y. split; [left; reflexivity | exact Hy]. }
    destruct Hex as (k & Hk & Hkf).
    unfold nearest_nm_in.
    apply (py_min_raise (nearest_nm_key nm) OverflowError table_keys k).
    + apply Spectral.nearest_nm_key_raise.
    + exact Hk.
    + apply Spectral.nearest_nm_key_overflow, Hkf.
Qed.

(** X7 on the keys 500, 450, 400 at 475 nm: 500 and 450 tie, the first one
    wins; and on a list with the key [10 ** 400], which no float holds. *)
Lemma nearest_nm_in_any_table_witness :
  (exists k pre post,
      nearest_nm_in 475 [500; 450; 400]%Z = Ok k
      /\ [500; 450; 400]%Z = pre ++ k :: post
      /\ (dist 475 450 <? dist 475 k)%float = false)
  /\ nearest_nm_in 475 [450; 10 ^ 400]%Z = Raise OverflowError.
Proof.
  destruct (nearest_nm_in_any_table 475) as (_ & Hfit & Hover).
  split.
  - destruct (Hfit [500; 450; 400]%Z)
      as (k & pre & post & Hk & Hl & Hleast & _);
      [discriminate | reflexivity |].
    exists k, pre, post. split; [exact Hk|]. split; [exact Hl|].
    apply Hleast. simpl; auto.
  - apply Hover. vm_compute. reflexivity.
Defined.

(** X8: a tabulated wavelength resolves to itself, so resolving is
    idempotent: the key found for any wavelength is found again for that
    key. *)
Theorem nearest_nm_round_trip :
  (forall k, In k (keys R_TABLE) -> nearest_nm (PyFloat.of_int k) = Ok k)
  /\ (forall nm k,
        nearest_nm nm = Ok k -> nearest_nm (PyFloat.of_int k) = Ok k).
Proof.
  assert (H : forall k, In k (keys R_TABLE) ->
                        nearest_nm (PyFloat.of_int k) = Ok k).
  { intros k Hk. change (In k grid) in Hk. unfold grid in Hk; simpl in Hk.
    repeat (destruct Hk as [<- | Hk]; [vm_compute; reflexivity|]).
    destruct Hk. }
  split; [exact H|].
  intros nm k Hk. apply H.
  destruct (Spectral.nearest_nm_in_grid nm) as (k' & Hk' & Hin).
  assert (k = k') by congruence. subst k'. exact Hin.
Qed.

(** X8 at 452.5 nm, which resolves to 450. *)
Lemma nearest_nm_round_trip_witness :
  nearest_nm 452.5 = Ok 450%Z /\ nearest_nm (PyFloat.of_int 450) = Ok 450%Z.
Proof.
  assert (H : nearest_nm 452.5 = Ok 450%Z) by reflexivity.
  split; [exact H|].
  exact (proj2 nearest_nm_round_trip 452.5%float 450%Z H).
Defined.

(** X9: a wavelength that is not finite (NaN or an infinity) is not
    rejected: no comparison of distances is true, the first key stays, and
    the evaluator goes on with 400 nm. *)
Theorem non_finite_wavelength_resolves_to_400
        (float_pow : float -> float -> float)
        (wavelength_nm power_pupil_W dwell_time_s rep_rate_Hz pulse_duration_s
         : float) :
  is_finite wavelength_nm = false ->
  nearest_nm wavelength_nm = Ok 400%Z
  /\ ((rep_rate_Hz =? 0)%float = false ->
      (aperture_cm2 float_pow =? 0)%float = false ->
      exists st,
        hazard_locals float_pow wavelength_nm power_pupil_W dwell_time_s
                      rep_rate_Hz pulse_duration_s = Ok st
        /\ nm st = 400%Z /\ B st = 0.060%float).
Proof.
  intros Hf.
  assert (Hn : nearest_nm wavelength_nm = Ok 400%Z).
  { unfold is_finite in Hf. apply negb_false_iff, orb_true_iff in Hf.
    destruct Hf as [Hf | Hf].
    - apply NearestFacts.is_nan_true in Hf. subst. reflexivity.
    - apply NearestFacts.is_infinity_true in Hf.
      destruct Hf; subst; reflexivity. }
  split; [exact Hn|].
  intros Hr HA.
  destruct (hazard_locals_ok float_pow wavelength_nm power_pupil_W
              dwell_time_s rep_rate_Hz pulse_duration_s Hr HA)
    as (st & Hst & Hnm & HB & _).
  exists st. split; [exact Hst|].
  apply Spectral.nearest_nm_inv in Hn. rewrite <- Hn in Hnm.
  split; [exact Hnm|].
  rewrite Hnm in HB.
  change (lookup B_TABLE 400) with (Some 0.060%float) in HB.
  now injection HB as <-.
Qed.

(** X9 for a NaN wavelength. *)
Lemma non_finite_wavelength_resolves_to_400_witness :
  nearest_nm nan = Ok 400%Z
  /\ exists st,
      hazard_locals pow_ref nan 5e-6 0.1 59e6 6e-12 = Ok st
      /\ nm st = 400%Z /\ B st = 0.060%float.
Proof.
  destruct (non_finite_wavelength_resolves_to_400
              pow_ref nan 5e-6 0.1 59e6 6e-12 eq_refl) as [H1 H2].
  split; [exact H1 | exact (H2 eq_refl eq_refl)].
Defined.

(** * More on [parse_value] *)

Module ParseMore.

Import Str.

Local Open Scope float_scope.

(** Turning a number that is not negative into a primitive float keeps it
    so, whether or not the mantissa is in range. *)
Lemma SF2Prim_nonneg (y : spec_float) :
  signed false y -> signed false (Prim2SF (SF2Prim y)).
Proof.
  destruct y as [s|s| |s m e]; simpl; intros H; subst; try contradiction.
  - change (Prim2SF zero) with (S754_zero false). reflexivity.
  - change (Prim2SF infinity) with (S754_infinity false). reflexivity.
  - rewrite Z_ldexp_spec, of_uint63_spec. unfold SFldexp.
    pose proof (FloatSign.binary_normalize_nonneg
                  (Uint63Axioms.to_Z (Uint63Axioms.of_Z (Z.pos m))) 0
                  (proj1 (Uint63.to_Z_bounded _))) as H.
    destruct (binary_normalize prec emax _ 0 false) as [s'|s'| |s' m' e'];
      simpl in H; subst; try contradiction; try reflexivity.
    apply FloatSign.binary_round_signed.
Qed.

Lemma decimal_to_float_nonneg (ip fp : list ascii) :
  signed false (Prim2SF (decimal_to_float ip fp)).
Proof.
  unfold decimal_to_float.
  destruct (digits_value 0 (ip ++ fp)) as [|m|m].
  - change (Prim2SF 0) with (S754_zero false). reflexivity.
  - apply SF2Prim_nonneg.
    apply (FloatSign.SFdiv_finite_signed false false). reflexivity.
  - change (Prim2SF 0) with (S754_zero false). reflexivity.
Qed.

Lemma float_of_str_value (s : list ascii) (x : float) :
  float_of_str s = Ok x -> exists ip fp, x = decimal_to_float ip fp.
Proof.
  unfold float_of_str.
  destruct (span isdigit s) as [ip rest].
  destruct rest as [|c rest].
  - destruct ip; [discriminate|]. intros [= <-]. eauto.
  - destruct (Ascii.eqb c "."); [|discriminate].
    destruct (span isdigit rest) as [fp junk].
    destruct junk; [|discriminate].
    destruct (ip ++ fp); [discriminate|]. intros [= <-]. eauto.
Qed.

(** Every scale of the dict is a positive finite number. *)
Lemma scale_is_positive (k : string) (sc : float) :
  scale_lookup scale_table k = Some sc ->
  exists m e, Prim2SF sc = S754_finite false m e.
Proof.
  unfold scale_table; cbn [scale_lookup].
  repeat (destruct (String.eqb _ k); [intros [= <-]; vm_compute; eauto|]).
  discriminate.
Qed.

(** The result is always [float(num) * scale] for a scale of the dict. *)
Lemma parse_value_Ok (s : string) (x : float) :
  parse_value s = Ok x ->
  exists num k n sc,
    float_of_str num = Ok n /\ scale_lookup scale_table k = Some sc
    /\ x = n * sc.
Proof.
  unfold parse_value.
  destruct (re_match (normalised s)) as [[num prefix]|]; [|discriminate].
  destruct (float_of_str num) as [n|e] eqn:Hn; [|discriminate].
  cbn [bind].
  destruct (scale_lookup scale_table (string_of_list_ascii prefix))
    as [sc|] eqn:Hsc; [|discriminate].
  cbn. intros [= <-]. exists num, (string_of_list_ascii prefix), n, sc. auto.
Qed.

(** *** White space *)

Lemma lstrip_all_spaces (ws : list ascii) :
  forallb isspace ws = true -> lstrip ws = [].
Proof.
  intros H. rewrite <- (app_nil_r ws). now rewrite ParseFacts.lstrip_spaces.
Qed.

Lemma lstrip_app (a b : list ascii) :
  lstrip (a ++ b) = if forallb isspace a then lstrip b else lstrip a ++ b.
Proof.
  induction a as [|c a IH]; simpl; [reflexivity|].
  destruct (isspace c); simpl; [exact IH | reflexivity].
Qed.

Lemma forallb_rev {A : Type} (p : A -> bool) (l : list A) :
  forallb p (rev l) = forallb p l.
Proof.
  induction l as [|x l IH]; simpl; [reflexivity|].
  rewrite forallb_app, IH. simpl. rewrite andb_true_r. apply andb_comm.
Qed.

(** Right stripping stops at the last character that is not white space. *)
Lemma rstrip_after_nonspace (a t : list ascii) (c : ascii) :
  isspace c = false -> rstrip (a ++ c :: t) = a ++ c :: rstrip t.
Proof.
  intros Hc. unfold rstrip.
  rewrite rev_app_distr. simpl rev. rewrite <- app_assoc. simpl app.
  rewrite lstrip_app.
  destruct (forallb isspace (rev t)) eqn:Ht.
  - rewrite (lstrip_all_spaces _ Ht). simpl. rewrite Hc.
    simpl. now rewrite rev_involutive.
  - rewrite rev_app_distr. simpl. rewrite rev_involutive, <- app_assoc.
    reflexivity.
Qed.

Lemma strip_spaces_around (ws1 s ws2 : list ascii) :
  forallb isspace ws1 = true -> forallb isspace ws2 = true ->
  strip (ws1 ++ s ++ ws2) = strip s.
Proof.
  intros H1 H2. unfold strip.
  rewrite (ParseFacts.lstrip_spaces _ _ H1), lstrip_app.
  destruct (forallb isspace s) eqn:Hs.
  - rewrite (lstrip_all_spaces _ H2), (lstrip_all_spaces _ Hs). reflexivity.
  - apply ParseFacts.rstrip_spaces, H2.
Qed.

(** *** Characters that are read alike *)

(** What line 11 does to one character. *)
Lemma normalised_unfold (s : string) :
  normalised s = map normal_char (strip (list_ascii_of_string s)).
Proof. unfold normalised, replace_char, lower. now rewrite map_map. Qed.

Lemma lstrip_map (g : ascii -> ascii) (s : list ascii) :
  (forall c, isspace (g c) = isspace c) ->
  lstrip (map g s) = map g (lstrip s).
Proof.
  intros Hg. induction s as [|c s IH]; simpl; [reflexivity|].
  rewrite Hg. destruct (isspace c); [exact IH | reflexivity].
Qed.

Lemma strip_map (g : ascii -> ascii) (s : list ascii) :
  (forall c, isspace (g c) = isspace c) ->
  strip (map g s) = map g (strip s).
Proof.
  intros Hg. unfold strip, rstrip.
  rewrite (lstrip_map g _ Hg), <- map_rev, (lstrip_map g _ Hg), map_rev.
  reflexivity.
Qed.

(** A change of characters that line 11 undoes cannot be seen in the
    result. *)
Lemma parse_value_map (g : ascii -> ascii) (s : list ascii) :
  (forall c, isspace (g c) = isspace c) ->
  (forall c, normal_char (g c) = normal_char c) ->
  parse_value (string_of_list_ascii (map g s))
  = parse_value (string_of_list_ascii s).
Proof.
  intros Hsp Hg. unfold parse_value.
  rewrite !normalised_unfold, !list_ascii_of_string_of_list_ascii.
  rewrite (strip_map g s Hsp), map_map.
  rewrite (map_ext _ _ Hg). reflexivity.
Qed.

Lemma lower_char_facts (c : ascii) :
  isspace (lower_char c) = isspace c
  /\ normal_char (lower_char c) = normal_char c.
Proof. destruct c as [[] [] [] [] [] [] [] []]; vm_compute; auto. Qed.

Lemma micro_facts (c : ascii) :
  let g := fun c => if Ascii.eqb c micro then "u"%char else c in
  isspace (g c) = isspace c
  /\ normal_char (g c) = normal_char c.
Proof. destruct c as [[] [] [] [] [] [] [] []]; vm_compute; auto. Qed.

(** Characters that line 11 leaves as they are, and the character after
    the number. *)
Lemma normal_char_id (c : ascii) :
  in_num_class c = true \/ isspace c = true -> normal_char c = c.
Proof.
  destruct c as [[] [] [] [] [] [] [] []]; vm_compute; auto;
    intros [H | H]; discriminate.
Qed.

Lemma normal_char_facts (c : ascii) :
  isspace (normal_char c) = isspace c
  /\ (in_num_class c = false -> in_num_class (normal_char c) = false).
Proof. destruct c as [[] [] [] [] [] [] [] []]; vm_compute; auto. Qed.

Lemma prefix_letter_facts (c l : ascii) (sc : float) :
  In (l, sc) spec_scales -> lower_char c = lower_char l ->
  isspace c = false /\ in_num_class c = false
  /\ in_prefix_class (normal_char c) = true
  /\ scale_lookup scale_table (String (normal_char c) EmptyString) = Some sc.
Proof.
  unfold spec_scales. simpl. intros H.
  repeat (destruct H as [[= <- <-] | H];
          [destruct c as [[] [] [] [] [] [] [] []]; vm_compute;
           try discriminate; auto 10|]).
  destruct H.
Qed.

(** The shape of the normalised string when a character that is neither
    white space nor part of the number follows the number. *)
Lemma normalised_number_then (ws1 num ws2 tail : list ascii) (c : ascii)
      (x : float) :
  forallb isspace ws1 = true -> forallb isspace ws2 = true ->
  float_of_str num = Ok x ->
  isspace c = false ->
  exists tail',
    normalised (string_of_list_ascii (ws1 ++ num ++ ws2 ++ c :: tail))
    = num ++ ws2 ++ normal_char c :: tail'.
Proof.
  intros H1 H2 Hx Hc.
  destruct (ParseFacts.float_of_str_class num x Hx) as [Hnum Hne].
  destruct num as [|d num']; [congruence|].
  assert (Hd : isspace d = false).
  { apply (ParseFacts.num_facts d).
    apply (ParseFacts.forallb_In _ _ _ Hnum). left; reflexivity. }
  rewrite normalised_unfold, list_ascii_of_string_of_list_ascii.
  unfold strip. rewrite (ParseFacts.lstrip_spaces _ _ H1).
  change ((d :: num') ++ ws2 ++ c :: tail)
    with (d :: (num' ++ ws2 ++ c :: tail)).
  rewrite (ParseFacts.lstrip_nonspace d _ Hd).
  change (d :: (num' ++ ws2 ++ c :: tail))
    with ((d :: num') ++ ws2 ++ c :: tail).
  rewrite app_assoc, (rstrip_after_nonspace _ tail c Hc).
  exists (map normal_char (rstrip tail)).
  rewrite !map_app, <- app_assoc.
  change (map normal_char (c :: rstrip tail))
    with (normal_char c :: map normal_char (rstrip tail)).
  rewrite (ParseFacts.map_id_on normal_char (d :: num')).
  2:{ intros a Ha. apply normal_char_id.
      left. exact (ParseFacts.forallb_In _ _ _ Hnum Ha). }
  rewrite (ParseFacts.map_id_on normal_char ws2).
  2:{ intros a Ha. apply normal_char_id.
      right. exact (ParseFacts.forallb_In _ _ _ H2 Ha). }
  reflexivity.
Qed.

(** The match on such a string: the number, and the character after it
    when it is a prefix letter. *)
Lemma re_match_number_then (num ws2 tail : list ascii) (c : ascii)
      (x : float) :
  forallb isspace ws2 = true ->
  float_of_str num = Ok x ->
  isspace c = false -> in_num_class c = false ->
  re_match (num ++ ws2 ++ c :: tail)
  = Some (num, if in_prefix_class c then [c] else []).
Proof.
  intros H2 Hx Hc Hn.
  destruct (ParseFacts.float_of_str_class num x Hx) as [Hnum Hne].
  unfold re_match.
  rewrite (ParseFacts.span_app in_num_class num (ws2 ++ c :: tail) Hnum).
  2:{ destruct ws2 as [|w ws2]; simpl; [exact Hn|].
      simpl in H2. apply andb_prop in H2 as [Hw _].
      apply (ParseFacts.space_facts w Hw). }
  destruct num as [|d num']; [congruence|].
  rewrite (ParseFacts.lstrip_spaces _ _ H2).
  rewrite (ParseFacts.lstrip_nonspace c _ Hc).
  destruct (in_prefix_class c); reflexivity.
Qed.

End ParseMore.

(** X10: [parse_value] never returns a negative number or a NaN, and a
    string that starts with a minus sign is rejected with [ValueError]. *)
Theorem parse_value_is_never_negative :
  (forall s x, parse_value s = Ok x -> (0 <=? x)%float = true)
  /\ (forall s,
        exists msg, parse_value (String "-" s) = Raise (ValueError msg)).
Proof.
  split.
  - intros s x H.
    destruct (ParseMore.parse_value_Ok s x H)
      as (num & k & n & sc & Hn & Hsc & ->).
    destruct (ParseMore.float_of_str_value num n Hn) as (ip & fp & ->).
    destruct (ParseMore.scale_is_positive k sc Hsc) as (m & e & Hm).
    apply FloatSign.signed_nonneg. rewrite mul_spec, Hm.
    apply (FloatSign.SFmul_finite_signed false false).
    apply ParseMore.decimal_to_float_nonneg.
  - intros s. unfold parse_value.
    rewrite ParseMore.normalised_unfold. cbn [list_ascii_of_string].
    unfold Str.strip.
    rewrite (ParseFacts.lstrip_nonspace "-" _ eq_refl).
    pose proof (ParseMore.rstrip_after_nonspace
                  [] (list_ascii_of_string s) "-" eq_refl) as Hr.
    cbn [app] in Hr. rewrite Hr. cbn [map]. unfold re_match. cbn [Str.span].
    change (in_num_class (normal_char "-")) with false. cbv iota.
    eexists. reflexivity.
Qed.

(** X10 on ["3k"] and on ["-3k"]. *)
Lemma parse_value_is_never_negative_witness :
  (exists x, parse_value "3k" = Ok x /\ (0 <=? x)%float = true)
  /\ exists msg, parse_value "-3k" = Raise (ValueError msg).
Proof.
  destruct parse_value_is_never_negative as [H1 H2].
  split; [|exact (H2 "3k"%string)].
  exists 3000%float. split; [reflexivity|].
  apply (H1 "3k"%string). reflexivity.
Defined.

(** X11: white space before and after the text does not matter, whatever
    the text is: the result, or the exception with its message, is the same
    with and without it. *)
Theorem parse_value_ignores_outer_space (ws1 s ws2 : list ascii) :
  forallb Str.isspace ws1 = true -> forallb Str.isspace ws2 = true ->
  parse_value (string_of_list_ascii (ws1 ++ s ++ ws2))
  = parse_value (string_of_list_ascii s).
Proof.
  intros H1 H2. unfold parse_value, normalised.
  rewrite !list_ascii_of_string_of_list_ascii.
  now rewrite (ParseMore.strip_spaces_around ws1 s ws2 H1 H2).
Qed.

(** X11 on ["  7n "]. *)
Lemma parse_value_ignores_outer_space_witness :
  parse_value "  7n " = parse_value "7n".
Proof.
  exact (parse_value_ignores_outer_space
           [" "; " "]%char ["7"; "n"]%char [" "]%char eq_refl eq_refl).
Defined.

(** X12: letter case and the micro sign cannot be told apart: lower-casing
    the text, or writing "u" for the micro sign, gives the same result.  So
    a capital "M" after a number is read as milli, the scale 1e-3. *)
Theorem parse_value_is_case_blind :
  (forall s,
      parse_value (string_of_list_ascii (Str.lower s))
      = parse_value (string_of_list_ascii s))
  /\ (forall s,
        parse_value (string_of_list_ascii (Str.replace_char Str.micro "u" s))
        = parse_value (string_of_list_ascii s))
  /\ (forall ws1 num ws2 ws3 x,
        forallb Str.isspace ws1 = true -> forallb Str.isspace ws2 = true ->
        forallb Str.isspace ws3 = true ->
        float_of_str num = Ok x ->
        parse_value (string_of_list_ascii (ws1 ++ num ++ ws2 ++ "M"%char :: ws3))
        = Ok (x * 1e-3)%float).
Proof.
  split; [|split].
  - intros s. apply ParseMore.parse_value_map;
      intros c; apply ParseMore.lower_char_facts.
  - intros s. apply ParseMore.parse_value_map;
      intros c; apply (ParseMore.micro_facts c).
  - intros ws1 num ws2 ws3 x H1 H2 H3 Hx.
    destruct (ParseMore.normalised_number_then ws1 num ws2 ws3 "M" x
                H1 H2 Hx eq_refl) as [tail' Hn].
    unfold parse_value. rewrite Hn.
    change (normal_char "M") with "m"%char.
    rewrite (ParseMore.re_match_number_then num ws2 tail' "m" x H2 Hx
               eq_refl eq_refl).
    change (in_prefix_class "m") with true. cbv iota.
    rewrite Hx. reflexivity.
Qed.

(** X12 on ["5M"], which is read as five thousandths. *)
Lemma parse_value_is_case_blind_witness :
  parse_value "5M" = Ok (5 * 1e-3)%float
  /\ parse_value "5M" = parse_value "5m".
Proof.
  destruct parse_value_is_case_blind as (H1 & _ & H3).
  split.
  - exact (H3 [] ["5"%char] [] [] 5%float eq_refl eq_refl eq_refl eq_refl).
  - symmetry. exact (H1 ["5"; "M"]%char).
Defined.

(** X13: whatever follows the number and its prefix letter is ignored.
    After a number, white space and a prefix letter, any text at all leaves
    the result [float(number) * scale]; after a number, white space and a
    character that is neither a digit, a dot nor a prefix letter, any text
    leaves the result [float(number) * 1.0]. *)
Theorem parse_value_ignores_trailing_text
        (ws1 num ws2 tail : list ascii) (c : ascii) (x : float) :
  forallb Str.isspace ws1 = true -> forallb Str.isspace ws2 = true ->
  float_of_str num = Ok x ->
  (forall l sc,
      In (l, sc) spec_scales -> Str.lower_char c = Str.lower_char l ->
      parse_value (string_of_list_ascii (ws1 ++ num ++ ws2 ++ c :: tail))
      = Ok (x * sc)%float)
  /\ (Str.isspace c = false -> in_num_class c = false ->
      in_prefix_class (normal_char c) = false ->
      parse_value (string_of_list_ascii (ws1 ++ num ++ ws2 ++ c :: tail))
      = Ok (x * 1.0)%float).
Proof.
  intros H1 H2 Hx. split.
  - intros l sc Hl Hc.
    destruct (ParseMore.prefix_letter_facts c l sc Hl Hc)
      as (Hsp & Hnc & Hp & Hsc).
    destruct (ParseMore.normalised_number_then ws1 num ws2 tail c x
                H1 H2 Hx Hsp) as [tail' Hn].
    unfold parse_value. rewrite Hn.
    destruct (ParseMore.normal_char_facts c) as [Hs' Hn'].
    rewrite (ParseMore.re_match_number_then num ws2 tail' (normal_char c) x
               H2 Hx); [|congruence|auto].
    rewrite Hp, Hx. cbn [bind string_of_list_ascii]. rewrite Hsc.
    reflexivity.
  - intros Hsp Hnc Hp.
    destruct (ParseMore.normalised_number_then ws1 num ws2 tail c x
                H1 H2 Hx Hsp) as [tail' Hn].
    unfold parse_value. rewrite Hn.
    destruct (ParseMore.normal_char_facts c) as [Hs' Hn'].
    rewrite (ParseMore.re_match_number_then num ws2 tail' (normal_char c) x
               H2 Hx); [|congruence|auto].
    rewrite Hp, Hx. reflexivity.
Qed.

(** X13 on ["100 ms"] and on ["1e-3"]. *)
Lemma parse_value_ignores_trailing_text_witness :
  parse_value "100 ms" = Ok (100 * 1e-3)%float
  /\ parse_value "1e-3" = Ok (1 * 1.0)%float.
Proof.
  split.
  - apply (proj1 (parse_value_ignores_trailing_text
                    [] ["1"; "0"; "0"]%char [" "%char] ["s"%char] "m" 100
                    eq_refl eq_refl eq_refl) "m"%char 1e-3%float);
      [simpl; auto 10 | reflexivity].
  - apply (proj2 (parse_value_ignores_trailing_text
                    [] ["1"%char] [] ["-"; "3"]%char "e" 1
                    eq_refl eq_refl eq_refl)); reflexivity.
Defined.

(** * The interactive prompt *)

Section MainFacts.

Variable float_pow : float -> float -> float.
Variable builtin_float : string -> result float.

Local Open Scope float_scope.

(** With a non-zero repetition rate the evaluator completes. *)
Lemma iso15004_smallspot_completes (w p d r pd : float) :
  (r =? 0) = false -> (aperture_cm2 float_pow =? 0) = false ->
  exists out,
    iso15004_smallspot float_pow w p d r pd = (out, Ok PyNone) /\ out <> [].
Proof.
  intros Hr HA.
  destruct (hazard_locals_ok float_pow w p d r pd Hr HA) as (st & Hst & _).
  destruct (report_total _ _ _ _ _ _ _ Hst) as (out & Hout & Hne).
  exists out. rewrite iso15004_smallspot_unfold, Hst, Hout. auto.
Qed.

(** [parse_value] raises [ValueError] only. *)
Lemma parse_value_raise (s : string) (e : exn) :
  parse_value s = Raise e -> exists msg, e = ValueError msg.
Proof.
  unfold parse_value.
  destruct (re_match (normalised s)) as [[num prefix]|] eqn:Hm;
    [|intros [= <-]; eauto].
  assert (Hp : scale_lookup scale_table (string_of_list_ascii prefix)
               <> None).
  { revert Hm. unfold re_match.
    destruct (Str.span in_num_class (normalised s)) as [num' rest].
    destruct num' as [|d num']; [discriminate|].
    destruct (Str.lstrip rest) as [|c rest'];
      [intros [= <- <-]; discriminate|].
    destruct (in_prefix_class c) eqn:Hc;
      [|intros [= <- <-]; discriminate].
    intros [= <- <-]. revert Hc.
    destruct c as [[] [] [] [] [] [] [] []]; vm_compute; discriminate. }
  destruct (float_of_str num) as [n|e'] eqn:Hn.
  - cbn [bind].
    destruct (scale_lookup scale_table (string_of_list_ascii prefix));
      [discriminate | congruence].
  - cbn [bind]. intros [= <-]. revert Hn. unfold float_of_str.
    repeat match goal with
           | |- context [match ?x with _ => _ end] => destruct x
           end; intros [= <-] || discriminate; eauto.
Qed.

(** What [main] does, line of input by line of input. *)
Lemma main_cases (stdin : list string) :
  let P1 := Prompt prompt_wavelength in
  let P2 := Prompt prompt_power in
  let P3 := Prompt prompt_duration in
  main float_pow builtin_float stdin
  = match stdin with
    | [] => ([P1], Stopped EOFError)
    | l1 :: stdin =>
        match builtin_float l1 with
        | Raise e => ([P1], Stopped (Uncaught e))
        | Ok wavelength =>
            match stdin with
            | [] => ([P1; P2], Stopped EOFError)
            | l2 :: [] => ([P1; P2; P3], Stopped EOFError)
            | l2 :: l3 :: stdin =>
                match parse_value l2 with
                | Raise e => ([P1; P2; P3], Stopped (Uncaught e))
                | Ok P =>
                    match parse_value l3 with
                    | Raise e => ([P1; P2; P3], Stopped (Uncaught e))
                    | Ok t =>
                        let (ev, r) :=
                          call_io
                            (iso15004_smallspot
                               float_pow wavelength P t
                               default_rep_rate_Hz default_pulse_duration_s)
                            stdin in
                        ([P1; P2; P3] ++ ev, r)
                    end
                end
            end
        end
    end.
Proof.
  cbv zeta. unfold main, console_bind, input, call.
  destruct stdin as [|l1 [|l2 [|l3 rest]]]; try reflexivity;
    destruct (builtin_float l1); try reflexivity.
  destruct (parse_value l2); [|reflexivity].
  destruct (parse_value l3); [|reflexivity].
  destruct (call_io _ rest). reflexivity.
Qed.

End MainFacts.

(** X14: started from the prompt, the program can only die of [EOFError]
    (fewer than three lines of input) or of [ValueError] (a line that does
    not parse): the evaluator always gets the default repetition rate, so
    its division cannot fail.  When the three lines parse, the three prompts
    are followed by the report for the parsed wavelength, power and duration
    with the rate 59e6 and the pulse duration 6e-12, and the power and
    duration are numbers that are not negative. *)
Theorem prompt_raises_only_ValueError_or_EOFError
        (float_pow : float -> float -> float)
        (builtin_float : string -> result float) (stdin : list string) :
  (aperture_cm2 float_pow =? 0)%float = false ->
  (forall s e, builtin_float s = Raise e -> exists msg, e = ValueError msg) ->
  (forall ev e,
      main float_pow builtin_float stdin = (ev, Stopped e) ->
      e = EOFError \/ exists msg, e = Uncaught (ValueError msg))
  /\ (forall l1 l2 l3 rest wavelength P t,
        stdin = l1 :: l2 :: l3 :: rest ->
        builtin_float l1 = Ok wavelength ->
        parse_value l2 = Ok P -> parse_value l3 = Ok t ->
        (0 <=? P)%float = true /\ (0 <=? t)%float = true
        /\ exists out,
            iso15004_smallspot float_pow wavelength P t 59e6 6e-12
            = (out, Ok PyNone)
            /\ main float_pow builtin_float stdin
               = ([Prompt prompt_wavelength; Prompt prompt_power;
                   Prompt prompt_duration] ++ map Printed out,
                  Returned PyNone rest)).
Proof.
  intros HA Hf. split.
  - intros ev e. rewrite main_cases. cbv zeta.
    destruct stdin as [|l1 [|l2 [|l3 rest]]].
    + intros [= <- <-]. auto.
    + destruct (builtin_float l1) eqn:H1; intros [= <- <-]; auto.
      right. destruct (Hf _ _ H1) as [msg ->]. eauto.
    + destruct (builtin_float l1) eqn:H1; intros [= <- <-]; auto.
      right. destruct (Hf _ _ H1) as [msg ->]. eauto.
    + destruct (builtin_float l1) as [w|e1] eqn:H1.
      2:{ intros [= <- <-]. right. destruct (Hf _ _ H1) as [msg ->]. eauto. }
      destruct (parse_value l2) as [P|e2] eqn:H2.
      2:{ intros [= <- <-]. right.
          destruct (parse_value_raise _ _ H2) as [msg ->]. eauto. }
      destruct (parse_value l3) as [t|e3] eqn:H3.
      2:{ intros [= <- <-]. right.
          destruct (parse_value_raise _ _ H3) as [msg ->]. eauto. }
      destruct (iso15004_smallspot_completes float_pow w P t
                  default_rep_rate_Hz default_pulse_duration_s eq_refl HA)
        as (out & Hout & _).
      unfold call_io. rewrite Hout. discriminate.
  - intros l1 l2 l3 rest w P t -> H1 H2 H3.
    assert (HP : (0 <=? P)%float = true).
    { destruct (ParseMore.parse_value_Ok l2 P H2)
        as (num & k & n & sc & Hn & Hsc & ->).
      destruct (ParseMore.float_of_str_value num n Hn) as (ip & fp & ->).
      destruct (ParseMore.scale_is_positive k sc Hsc) as (m & e & Hm).
      apply FloatSign.signed_nonneg. rewrite mul_spec, Hm.
      apply (FloatSign.SFmul_finite_signed false false).
      apply ParseMore.decimal_to_float_nonneg. }
    assert (Ht : (0 <=? t)%float = true).
    { destruct (ParseMore.parse_value_Ok l3 t H3)
        as (num & k & n & sc & Hn & Hsc & ->).
      destruct (ParseMore.float_of_str_value num n Hn) as (ip & fp & ->).
      destruct (ParseMore.scale_is_positive k sc Hsc) as (m & e & Hm).
      apply FloatSign.signed_nonneg. rewrite mul_spec, Hm.
      apply (FloatSign.SFmul_finite_signed false false).
      apply ParseMore.decimal_to_float_nonneg. }
    split; [exact HP|]. split; [exact Ht|].
    destruct (iso15004_smallspot_completes float_pow w P t
                default_rep_rate_Hz default_pulse_duration_s eq_refl HA)
      as (out & Hout & _).
    exists out. split; [exact Hout|].
    rewrite main_cases. cbv zeta. rewrite H1, H2, H3.
    unfold call_io. rewrite Hout. reflexivity.
Qed.

(** X14 on the three lines 430, 5u and 100m. *)
Lemma prompt_raises_only_ValueError_or_EOFError_witness :
  exists out,
    iso15004_smallspot pow_ref 430 (5 * 1e-6) (100 * 1e-3) 59e6 6e-12
    = (out, Ok PyNone)
    /\ main pow_ref float_ref ["430"; "5u"; "100m"]%string
       = ([Prompt prompt_wavelength; Prompt prompt_power;
           Prompt prompt_duration] ++ map Printed out,
          Returned PyNone []).
Proof.
  assert (Hf : forall s e, float_ref s = Raise e ->
                           exists msg, e = ValueError msg).
  { intros s e. unfold float_ref, float_of_str.
    repeat match goal with
           | |- context [match ?x with _ => _ end] => destruct x
           end; intros [= <-] || discriminate; eauto. }
  destruct (proj2 (prompt_raises_only_ValueError_or_EOFError
                     pow_ref float_ref ["430"; "5u"; "100m"]%string
                     eq_refl Hf)
                  "430"%string "5u"%string "100m"%string []
                  430%float (5 * 1e-6)%float (100 * 1e-3)%float
                  eq_refl eq_refl eq_refl eq_refl)
    as (_ & _ & out & H1 & H2).
  exists out. split; assumption.
Defined.

(** X15: nothing of the report is printed unless all three lines parse.
    When the program stops on an exception it has written prompts only; a
    wavelength that does not parse stops it after the first prompt, and a
    power that does not parse only after the duration has been asked for and
    read. *)
Theorem prompt_prints_no_partial_report
        (float_pow : float -> float -> float)
        (builtin_float : string -> result float) :
  (aperture_cm2 float_pow =? 0)%float = false ->
  let P1 := Prompt prompt_wavelength in
  let P2 := Prompt prompt_power in
  let P3 := Prompt prompt_duration in
  (forall stdin ev e,
      main float_pow builtin_float stdin = (ev, Stopped e) ->
      ev = [P1] \/ ev = [P1; P2] \/ ev = [P1; P2; P3])
  /\ (forall l1 rest e,
        builtin_float l1 = Raise e ->
        main float_pow builtin_float (l1 :: rest)
        = ([P1], Stopped (Uncaught e)))
  /\ (forall l1 l2 l3 rest wavelength e,
        builtin_float l1 = Ok wavelength -> parse_value l2 = Raise e ->
        main float_pow builtin_float (l1 :: l2 :: l3 :: rest)
        = ([P1; P2; P3], Stopped (Uncaught e)))
  /\ (forall l1 l2 wavelength,
        builtin_float l1 = Ok wavelength ->
        main float_pow builtin_float [l1; l2]
        = ([P1; P2; P3], Stopped EOFError)).
Proof.
  intros HA P1 P2 P3. split; [|split; [|split]].
  - intros stdin ev e. rewrite main_cases. cbv zeta.
    destruct stdin as [|l1 [|l2 [|l3 rest]]].
    + intros [= <- <-]. auto.
    + destruct (builtin_float l1); intros [= <- <-]; auto.
    + destruct (builtin_float l1); intros [= <- <-]; auto.
    + destruct (builtin_float l1) as [w|e1]; [|intros [= <- <-]; auto].
      destruct (parse_value l2) as [P|e2]; [|intros [= <- <-]; auto].
      destruct (parse_value l3) as [t|e3]; [|intros [= <- <-]; auto].
      destruct (iso15004_smallspot_completes float_pow w P t
                  default_rep_rate_Hz default_pulse_duration_s eq_refl HA)
        as (out & Hout & _).
      unfold call_io. rewrite Hout. discriminate.
  - intros l1 rest e H1. rewrite main_cases. cbv zeta. now rewrite H1.
  - intros l1 l2 l3 rest w e H1 H2. rewrite main_cases. cbv zeta.
    now rewrite H1, H2.
  - intros l1 l2 w H1. rewrite main_cases. cbv zeta. now rewrite H1.
Qed.

(** X15 on a power that does not parse. *)
Lemma prompt_prints_no_partial_report_witness :
  main pow_ref float_ref ["430"; "five"; "100m"]%string
  = ([Prompt prompt_wavelength; Prompt prompt_power; Prompt prompt_duration],
     Stopped (Uncaught (ValueError "Invalid value format: five"))).
Proof.
  exact (proj1 (proj2 (proj2 (prompt_prints_no_partial_report
                                pow_ref float_ref eq_refl)))
               "430"%string "five"%string "100m"%string [] 430%float
               (ValueError "Invalid value format: five")
               eq_refl eq_refl).
Defined.
